(** * DoctorFinder: the [find_doctors] tool of [agent/doctor_search_agent/agent.py]

    A shallow embedding of the tool function, of its two helpers
    ([get_location_from_ip], [geocode_city]) and of the distance function
    ([haversine_km], on binary64 floats).  The three HTTP collaborators
    (IP geolocation, geocoding, nearby search) are an explicit [world] of
    canned responses; every outbound call is logged, so that statements
    such as "the IP service is not contacted" are statements about the log.
    Python exceptions are explicit results.

    Python values that reach the function from JSON are untyped, and so are
    they here: the [pyval] type is the image of [json.loads] plus what the
    function's own arguments may hold. *)

From Stdlib Require Import ZArith Ascii String Floats.
From stdpp Require Import base option list strings gmap pretty.

Set Warnings "-register-all".
#[local] Open Scope string_scope.
#[local] Open Scope list_scope.

(* ===================================================================== *)
(** ** Python values *)
(* ===================================================================== *)

Module Py.

(** A Python [float] is an IEEE-754 binary64 number, which is what Rocq's
    primitive [float] is.  A JSON object is a [dict] with [str] keys. *)
Inductive pyval :=
| PNone
| PBool (b : bool)
| PInt (z : Z)
| PFloat (f : float)
| PStr (s : string)
| PList (l : list pyval)
| PDict (d : gmap string pyval).

(** The exceptions the function's own operations can raise.  [RequestError]
    stands for whatever [requests.get(...)] or [.json()] raises (connection
    failure, timeout, a body that is not JSON). *)
Inductive exn :=
| RequestError
| KeyError
| IndexError
| TypeError
| AttributeError
| ValueError
| OverflowError.

(** [bool(v)]: the truth value Python's [if], [and], [or] and [not] use.
    A number is false exactly when it compares equal to zero, so both
    [0.0] and [-0.0] are false and a NaN is true. *)
Definition truthy (v : pyval) : bool :=
  match v with
  | PNone => false
  | PBool b => b
  | PInt z => negb (z =? 0)%Z
  | PFloat f => negb (PrimFloat.eqb f 0%float)
  | PStr s => negb (String.eqb s "")
  | PList l => match l with [] => false | _ :: _ => true end
  | PDict d => match map_to_list d with [] => false | _ :: _ => true end
  end.

(** An [Optional[...]] argument as a value. *)
Definition of_opt_float (o : option float) : pyval :=
  match o with Some f => PFloat f | None => PNone end.

Definition of_opt_str (o : option string) : pyval :=
  match o with Some s => PStr s | None => PNone end.

(** [v == "literal"]: a [str] equals only an equal [str]. *)
Definition eq_str (v : pyval) (lit : string) : bool :=
  match v with
  | PStr s => String.eqb s lit
  | _ => false
  end.

(** [v[key]] for a string key.  Only a [dict] maps string keys; a [list] or
    [str] wants an integer, and the other values are not subscriptable. *)
Definition getitem (v : pyval) (key : string) : exn + pyval :=
  match v with
  | PDict d => match d !! key with Some x => inr x | None => inl KeyError end
  | _ => inl TypeError
  end.

(** *** Strings

    A Python [str] is a sequence of Unicode characters; here it is the
    UTF-8 encoding of that sequence, which is what a Rocq string literal
    holds.  Operations that count characters decode the lead bytes. *)

Definition string_drop (n : nat) (s : string) : string :=
  String.substring n (String.length s - n) s.

(** Width in bytes of the UTF-8 character that starts with byte [a]. *)
Definition utf8_width (a : ascii) : nat :=
  let n := nat_of_ascii a in
  if (n <? 192)%nat then 1
  else if (n <? 224)%nat then 2
  else if (n <? 240)%nat then 3 else 4.

(** The characters of a string, each as a string of its own (what
    iterating over a [str] yields). *)
Fixpoint utf8_chars_go (fuel : nat) (s : string) : list string :=
  match fuel with
  | 0 => []
  | S fuel' =>
      match s with
      | "" => []
      | String a _ =>
          let w := utf8_width a in
          String.substring 0 w s :: utf8_chars_go fuel' (string_drop w s)
      end
  end.

Definition utf8_chars (s : string) : list string :=
  utf8_chars_go (String.length s) s.

(** The first [n] characters of a string ([s[:n]]). *)
Definition utf8_take (n : nat) (s : string) : string :=
  String.concat "" (take n (utf8_chars s)).

Definition of_bytes (l : list nat) : string :=
  foldr (fun n s => String (ascii_of_nat n) s) "" l.

(** The characters [str.isspace] accepts, UTF-8 encoded: U+0009..U+000D,
    U+001C..U+0020, U+0085, U+00A0, U+1680, U+2000..U+200A, U+2028,
    U+2029, U+202F, U+205F and U+3000. *)
Definition whitespace : list string :=
  of_bytes <$>
    (((fun b => [b]) <$> [9; 10; 11; 12; 13; 28; 29; 30; 31; 32]) ++
     [[194; 133]; [194; 160]; [225; 154; 128]] ++
     ((fun b => [226; 128; b]) <$> seq 128 11) ++
     [[226; 128; 168]; [226; 128; 169]; [226; 128; 175];
      [226; 129; 159]; [227; 128; 128]])%list.

(** Drop from the front of [s] every leading occurrence of a pattern. *)
Fixpoint strip_left (pats : list string) (fuel : nat) (s : string) : string :=
  match fuel with
  | 0 => s
  | S fuel' =>
      match List.find (fun p => String.prefix p s) pats with
      | Some p => strip_left pats fuel' (string_drop (String.length p) s)
      | None => s
      end
  end.

(** [s.strip()]: leading and trailing whitespace removed. *)
Definition strip (s : string) : string :=
  let l := strip_left whitespace (String.length s) s in
  String.rev
    (strip_left (String.rev <$> whitespace) (String.length l) (String.rev l)).

(** [v[0]].  A [dict] decoded from JSON has no integer key. *)
Definition getitem0 (v : pyval) : exn + pyval :=
  match v with
  | PList l => match l !! 0 with Some x => inr x | None => inl IndexError end
  | PStr s => if String.eqb s "" then inl IndexError else inr (PStr (utf8_take 1 s))
  | PDict _ => inl KeyError
  | _ => inl TypeError
  end.

(** [v.get(key, default)]: only a [dict] has the method. *)
Definition get (v : pyval) (key : string) (dflt : pyval) : exn + pyval :=
  match v with
  | PDict d => inr (default dflt (d !! key))
  | _ => inl AttributeError
  end.

(** [v[:12]].  Sequences are cut; a [dict] does not take a slice (the
    exception is a [TypeError] up to Python 3.11), and the scalars are not
    subscriptable. *)
Definition slice12 (v : pyval) : exn + pyval :=
  match v with
  | PList l => inr (PList (take 12 l))
  | PStr s => inr (PStr (utf8_take 12 s))
  | _ => inl TypeError
  end.

(** What [for p in v] iterates over.  The keys of a [dict] come in the
    map's order, not in insertion order; the loop of this program only
    sees a slice, which is a [list] or a [str]. *)
Definition iter (v : pyval) : exn + list pyval :=
  match v with
  | PList l => inr l
  | PStr s => inr (PStr <$> utf8_chars s)
  | PDict d => inr (PStr <$> (map_to_list d).*1)
  | _ => inl TypeError
  end.

End Py.

Import Py.

(* ===================================================================== *)
(** ** Collaborators and effects *)
(* ===================================================================== *)

(** One outbound HTTP request, with the parameters the function chose. *)
Inductive call :=
| GeocodeCall (address key : string)
| IpLookupCall
| NearbySearchCall (location : string) (radius : Z) (keyword key : string).

(** What [requests.get(...).json()] comes back with: the decoded body, or
    an exception (no connection, timeout, a body that is not JSON). *)
Inductive http_result :=
| HttpFail
| HttpJson (body : pyval).

(** The answers of the three services, fixed for one invocation. *)
Record world := World {
  geocode_api : string -> http_result;
  ip_api : http_result;
  places_api : string -> Z -> string -> http_result
}.

(** A computation logs the calls it makes and ends in a value or in an
    exception. *)
Definition io (A : Type) : Type := list call * (exn + A).

Definition io_ret {A} (a : A) : io A := ([], inr a).

Definition io_bind {A B} (m : io A) (k : A -> io B) : io B :=
  match m with
  | (log, inl e) => (log, inl e)
  | (log, inr a) => let '(log', r) := k a in (log ++ log', r)
  end.

(** A pure operation that may raise. *)
Definition io_lift {A} (r : exn + A) : io A := ([], r).

(** [try: m  except Exception: h]. *)
Definition io_catch {A} (m : io A) (h : exn -> io A) : io A :=
  match m with
  | (log, inl e) => let '(log', r) := h e in (log ++ log', r)
  | ok => ok
  end.

(** Perform a request: log it and take the world's answer. *)
Definition request (c : call) (r : http_result) : io pyval :=
  ([c], match r with HttpFail => inl RequestError | HttpJson v => inr v end).

Definition calls {A} (m : io A) : list call := m.1.
Definition outcome {A} (m : io A) : exn + A := m.2.

(** A computation that contacts no service. *)
Definition silent {A} (m : io A) : Prop := calls m = [].

(** The two location services, as opposed to the search itself. *)
Definition is_lookup (c : call) : Prop :=
  match c with
  | NearbySearchCall _ _ _ _ => False
  | _ => True
  end.

Declare Scope io_scope.
Delimit Scope io_scope with io.
Notation "x <- m ;; k" := (io_bind m (fun x => k))
  (at level 100, m at next level, right associativity) : io_scope.
Notation "x <~ r ;; k" := (io_bind (io_lift r) (fun x => k))
  (at level 100, r at next level, right associativity) : io_scope.

(** The same sequencing for pure code that may raise. *)
Definition exn_bind {A B} (r : exn + A) (k : A -> exn + B) : exn + B :=
  match r with inl e => inl e | inr a => k a end.

Declare Scope exn_scope.
Delimit Scope exn_scope with exn.
Notation "x <- r ;; k" := (exn_bind r (fun x => k))
  (at level 100, r at next level, right associativity) : exn_scope.

(** The loop [for p in l: results.append(f(p))]: the first exception ends
    it. *)
Fixpoint collect {A} (f : pyval -> exn + A) (l : list pyval) : exn + list A :=
  match l with
  | [] => inr []
  | p :: ps => (d <- f p ;; ds <- collect f ps ;; inr (d :: ds))%exn
  end.

(** The value the tool hands back: the [{"error": msg}] dict or the
    rendered text. *)
Inductive tool_result :=
| Error (msg : string)
| Listing (text : string).

(** The [dict] built for each place. *)
Record doctor := Doctor {
  name : pyval;
  address : pyval;
  rating : pyval;
  reviews : pyval;
  distance_km : float;
  open_now : pyval
}.

(** What [get_location_from_ip] returns on success. *)
Record ip_location := IpLocation {
  ip_city : pyval;
  ip_country : pyval;
  ip_lat : pyval;
  ip_lng : pyval
}.

Definition nl : string := String (ascii_of_nat 10) "".

(* ===================================================================== *)
(** ** Great-circle distance *)
(* ===================================================================== *)

(** The part of Python's [math] module that IEEE-754 arithmetic fixes. *)
Module Math.

#[local] Open Scope float_scope.

(** [math.pi], the double nearest to pi. *)
Definition pi : float := 0x1.921fb54442d18p+1.

(** [math.radians(x)] is [x * (pi / 180.0)], the factor being computed
    in double precision. *)
Definition degToRad : float := pi / 180.

Definition radians (x : float) : float := x * degToRad.

(** [math.sqrt(x)]: the correctly rounded root.  A result that is a NaN
    for an argument that is not one raises ValueError("math domain
    error"); that is the case of a negative argument. *)
Definition sqrt (x : float) : exn + float :=
  let r := PrimFloat.sqrt x in
  if is_nan r && negb (is_nan x) then inl ValueError else inr r.

End Math.

Module Distance.

#[local] Open Scope float_scope.

Section Libm.

(** What Python takes from the C library:
    - [sin x], [cos x]: [math.sin(x)] and [math.cos(x)]; [None] is the
      ValueError they raise (the argument is an infinity);
    - [atan2 y x]: [math.atan2(y, x)], which does not raise;
    - [pow x y]: [x ** y] for a float [x] and the exponent of line 22;
      [None] is the OverflowError of a result out of range. *)
Variables (sin cos : float -> option float)
          (atan2 : float -> float -> float)
          (pow : float -> float -> option float).

Definition raising (e : exn) (r : option float) : exn + float :=
  match r with
  | Some x => inr x
  | None => inl e
  end.

(** Lines 18-23, on [float] arguments.  The operands of line 22 are
    evaluated left to right, so that is the order in which the library
    calls can raise.  The integers [R * 2], [2] and [1] meet a float and
    are converted, without rounding. *)
Definition haversine_km (lat1 lng1 lat2 lng2 : float) : exn + float :=
  let R := 6371 in
  let dlat := Math.radians (lat2 - lat1) in
  let dlng := Math.radians (lng2 - lng1) in
  (s1 <- raising ValueError (sin (dlat / 2)) ;;
   p1 <- raising OverflowError (pow s1 2) ;;
   c1 <- raising ValueError (cos (Math.radians lat1)) ;;
   c2 <- raising ValueError (cos (Math.radians lat2)) ;;
   s2 <- raising ValueError (sin (dlng / 2)) ;;
   p2 <- raising OverflowError (pow s2 2) ;;
   let a := p1 + c1 * c2 * p2 in
   q1 <- Math.sqrt a ;;
   q2 <- Math.sqrt (1 - a) ;;
   inr (R * 2 * atan2 q1 q2))%exn.

End Libm.

(** A coordinate of the data model: a latitude in [-90, 90] and a
    longitude in [-180, 180]. *)
Definition coordinate (lat lng : float) : bool :=
  (-90 <=? lat) && (lat <=? 90) && (-180 <=? lng) && (lng <=? 180).

(** The tolerance of the symmetry test: the double nearest to 0.01. *)
Definition tolerance : float := 0x1.47ae147ae147bp-7.

(** What the statements below take for granted of the C library: the
    exact values C's Annex F gives at zero, a cosine of magnitude at most
    one, and the symmetries of the sine and of the square. *)
Record libm_facts (sin cos : float -> option float)
    (atan2 : float -> float -> float)
    (pow : float -> float -> option float) : Prop := LibmFacts {
  sin_zero : sin 0 = Some 0;
  sin_odd : forall x, sin (- x) = option_map PrimFloat.opp (sin x);
  cos_bounded : forall x, is_finite x = true ->
    exists c, cos x = Some c /\ (abs c <=? 1) = true;
  pow_zero : pow 0 2 = Some 0;
  pow_even : forall x, pow (- x) 2 = pow x 2;
  atan2_zero : atan2 0 1 = 0
}.

(** The values of the C library on the way from (8, 0) to (-8, 180),
    two coordinates opposite each other on the globe; they are the
    correctly rounded ones.  In decimal: sin(0.13962634015954636) is
    0.13917310096006544, its square 0.019369152030840567, the cosine
    0.9902680687415704, and sin(1.5707963267948966) is 1.0. *)
Record antipode_values (sin cos : float -> option float)
    (pow : float -> float -> option float) : Prop := AntipodeValues {
  sin_8 : sin (Math.radians 8) = Some 0x1.1d06c968d9e19p-3;
  cos_8 : cos (Math.radians 8) = Some 0x1.fb046a930947ap-1;
  cos_minus_8 : cos (Math.radians (-8)) = Some 0x1.fb046a930947ap-1;
  sin_90 : sin (Math.radians 180 / 2) = Some 1;
  pow_sin_8 : pow 0x1.1d06c968d9e19p-3 2 = Some 0x1.3d581ca184804p-6;
  pow_one : pow 1 2 = Some 1
}.

End Distance.

(** A coarse stand-in for the library, exact in binary64: a sine that is
    linear up to one radian and the sign beyond, a constant cosine, the
    square as a product, and the arc tangent of a small ratio.  The slope
    and the constant make it agree with the C library at the arguments of
    [Distance.antipode_values]. *)
Module Coarse.

#[local] Open Scope float_scope.

Definition sin (x : float) : option float :=
  Some (if abs x <=? 1 then x * 0x1.fe568767f414p-1 else x / abs x).
Definition cos (x : float) : option float := Some 0x1.fb046a930947ap-1.
Definition atan2 (y x : float) : float := y.
Definition pow (x y : float) : option float := Some (x * x).

End Coarse.

(* ===================================================================== *)
(** ** The tool *)
(* ===================================================================== *)

(** What the function takes from outside this file's reach.

    - [API_KEY]: read from the environment when the module is loaded.
    - [float_str], [container_str]: [str(x)] of a [float], and of a [list]
      or [dict]; the interpreter's number and container formatting.
    - [haversine_km lat1 lng1 lat2 lng2]: lines 18-23 applied to the
      untyped values of a place; it raises when an argument is not a
      number.  On [float] arguments it is [Distance.haversine_km] above.
    - [round1 x]: [round(x, 1)]. *)
Record host := Host {
  API_KEY : string;
  float_str : float -> string;
  container_str : pyval -> string;
  haversine_km : pyval -> pyval -> pyval -> pyval -> exn + float;
  round1 : float -> float
}.

Section Tool.

Variable h : host.

(** [str(v)], which is also how an f-string renders [{v}]. *)
Definition str (v : pyval) : string :=
  match v with
  | PNone => "None"
  | PBool true => "True"
  | PBool false => "False"
  | PInt z => pretty z
  | PFloat f => float_str h f
  | PStr s => s
  | PList _ | PDict _ => container_str h v
  end.

(** [a or b] on strings, [a] being optional. *)
Definition str_or (a : option string) (b : string) : string :=
  match a with
  | Some s => if truthy (PStr s) then s else b
  | None => b
  end.

(** Lines 25-39.  Every exception raised inside the [try] is caught, and
    the function then falls through to [return None]. *)
Definition get_location_from_ip (w : world) : io (option ip_location) :=
  io_catch
    (data <- request IpLookupCall (ip_api w) ;;
     status <~ getitem data "status" ;;
     if eq_str status "success" then
       city <~ get data "city" (PStr "Unknown") ;;
       country <~ get data "countryCode" (PStr "") ;;
       lat <~ getitem data "lat" ;;
       lng <~ getitem data "lon" ;;
       io_ret (Some (IpLocation city country lat lng))
     else io_ret None)%io
    (fun _ => io_ret None).

(** Lines 41-49.  Nothing is caught here. *)
Definition geocode_city (w : world) (city : string) : io (pyval * pyval) :=
  (r <- request (GeocodeCall city (API_KEY h)) (geocode_api w city) ;;
   status <~ get r "status" PNone ;;
   if eq_str status "OK" then
     results <~ getitem r "results" ;;
     first <~ getitem0 results ;;
     geometry <~ getitem first "geometry" ;;
     loc <~ getitem geometry "location" ;;
     lat <~ getitem loc "lat" ;;
     lng <~ getitem loc "lng" ;;
     io_ret (lat, lng)
   else io_ret (PNone, PNone))%io.

(** Lines 84-95: the origin and its label from the coordinates at hand, by
    IP lookup when they are missing; [None] where the function returns the
    "Unable to detect" error. *)
Definition settle (w : world) (city : option string) (lat lng : pyval)
    : io (option (pyval * pyval * string)) :=
  (if negb (truthy lat && truthy lng) then
     ip <- get_location_from_ip w ;;
     match ip with
     | Some ip =>
         io_ret (Some (ip_lat ip, ip_lng ip,
                       str (ip_city ip) +:+ ", " +:+ str (ip_country ip)))
     | None => io_ret None
     end
   else io_ret (Some (lat, lng, str_or city "your area")))%io.

(** Lines 78-95: geocode the city when there is one and the coordinates
    are missing, then settle. *)
Definition resolve_location (w : world) (city : option string)
    (lat lng : option float) : io (option (pyval * pyval * string)) :=
  let lat := of_opt_float lat in
  let lng := of_opt_float lng in
  (coords <-
     (if truthy (of_opt_str city) && negb (truthy lat && truthy lng)
      then geocode_city w (default "" city)
      else io_ret (lat, lng)) ;;
   settle w city coords.1 coords.2)%io.

(** Line 97. *)
Definition keyword_of (specialty : option string) : string :=
  match specialty with
  | Some s => if truthy (PStr s) then strip s else "doctor"
  | None => "doctor"
  end.

(** Lines 99-108: the one nearby-search request. *)
Definition nearby_search (w : world) (lat lng : pyval) (keyword : string)
    (radius_km : Z) : io pyval :=
  let location := str lat +:+ "," +:+ str lng in
  let radius := ((radius_km * 1000) `min` 50000)%Z in
  request (NearbySearchCall location radius keyword (API_KEY h))
          (places_api w location radius keyword).

(** Lines 124-134: one place of the response as a result [dict]. *)
Definition doctor_of (lat lng : pyval) (p : pyval) : exn + doctor :=
  (geometry <- getitem p "geometry" ;;
   loc <- getitem geometry "location" ;;
   plat <- getitem loc "lat" ;;
   plng <- getitem loc "lng" ;;
   km <- haversine_km h lat lng plat plng ;;
   let distance := round1 h km in
   name <- get p "name" (PStr "Unknown") ;;
   address <- get p "vicinity" (PStr "No address") ;;
   rating <- get p "rating" (PStr "No rating") ;;
   reviews <- get p "user_ratings_total" (PInt 0) ;;
   hours <- get p "opening_hours" (PDict ∅) ;;
   open_now <- get hours "open_now" PNone ;;
   inr (Doctor name address rating reviews distance open_now))%exn.

(** Line 139, [i] being the 1-based position. *)
Definition render_line (i : nat) (d : doctor) : string :=
  pretty i +:+ ". " +:+ str (name d) +:+ " • " +:+ str (rating d) +:+ " " +:+
  str (reviews d) +:+ " • " +:+ str (PFloat (distance_km d)) +:+ " • " +:+
  str (open_now d).

(** Lines 136-140: [enumerate(results, 1)]. *)
Definition render_lines (results : list doctor) : list string :=
  imap (fun i d => render_line (S i) d) results.

(** Lines 142-150. *)
Definition render_page (specialty : option string) (detected_city : string)
    (lines : list string) : string :=
  nl +:+ "    Here are the top " +:+ str_or specialty "doctors" +:+ " near " +:+
  detected_city +:+ ":" +:+ nl +:+ nl +:+
  "    " +:+ String.concat nl lines +:+ nl +:+ nl +:+
  "    Do you want directions, phone number, or another specialty?" +:+ nl +:+
  "    ".

(** Lines 110-150: what the function makes of the search response. *)
Definition present (specialty : option string) (radius_km : Z)
    (lat lng : pyval) (detected_city : string) (resp : pyval)
    : exn + tool_result :=
  (status <- get resp "status" PNone ;;
   if eq_str status "REQUEST_DENIED" then
     inr (Error "Google Places API not enabled or billing inactive.")
   else
   status <- get resp "status" PNone ;;
   if eq_str status "OVER_QUERY_LIMIT" then
     inr (Error "API quota exceeded.")
   else
   found <- get resp "results" (PList []) ;;
   places <- slice12 found ;;
   if negb (truthy places) then
     inr (Error ("No doctors found within " +:+ pretty radius_km +:+
                 " km of " +:+ detected_city +:+ "."))
   else
   items <- iter places ;;
   results <- collect (doctor_of lat lng) items ;;
   inr (Listing (render_page specialty detected_city (render_lines results))))%exn.

(** Lines 55-150. *)
Definition find_doctors (w : world) (specialty city : option string)
    (lat lng : option float) (radius_km : Z) : io tool_result :=
  (origin <- resolve_location w city lat lng ;;
   match origin with
   | None =>
       io_ret (Error "Unable to detect your location. Please provide a city name.")
   | Some (lat, lng, detected_city) =>
       resp <- nearby_search w lat lng (keyword_of specialty) radius_km ;;
       io_lift (present specialty radius_km lat lng detected_city resp)
   end)%io.

End Tool.

(* ===================================================================== *)
(** ** Sample collaborators *)
(* ===================================================================== *)

Module Sample.

(** A JSON object from its members. *)
Definition obj (members : list (string * pyval)) : pyval :=
  PDict (list_to_map members).

(** A geocoding answer with status "OK" and one result. *)
Definition geocoded (lat lng : pyval) : pyval :=
  obj [("status", PStr "OK");
       ("results",
        PList [obj [("geometry",
                     obj [("location", obj [("lat", lat); ("lng", lng)])])]])].

(** An IP-geolocation answer with status "success". *)
Definition ip_located (city country : string) (lat lng : pyval) : pyval :=
  obj [("status", PStr "success"); ("city", PStr city);
       ("countryCode", PStr country); ("lat", lat); ("lon", lng)].

(** A place with a position, a name and nothing else (no rating). *)
Definition clinic (nm : string) : pyval :=
  obj [("name", PStr nm);
       ("geometry",
        obj [("location",
              obj [("lat", PFloat 12.5%float); ("lng", PFloat 77.75%float)])])].

(** A nearby-search answer. *)
Definition found (status : string) (results : list pyval) : pyval :=
  obj [("status", PStr status); ("results", PList results)].

(** A host for running the examples: the distance and the formatting of
    floats are fixed stand-ins. *)
Definition host0 : host :=
  {| API_KEY := "k";
     float_str := fun _ => "0.0";
     container_str := fun _ => "[]";
     haversine_km := fun _ _ _ _ => inr 0%float;
     round1 := fun x => x |}.

(** Every service is down. *)
Definition offline : world :=
  World (fun _ => HttpFail) HttpFail (fun _ _ _ => HttpFail).

(** Nearby search answers [resp]; the other two services are down. *)
Definition searching (resp : pyval) : world :=
  World (fun _ => HttpFail) HttpFail (fun _ _ _ => HttpJson resp).

(** Twenty places, as a full page of upstream results. *)
Definition twenty : list pyval :=
  (fun i => clinic (pretty i)) <$> seq 1 20.

(** What [doctor_of] makes of [clinic nm] under [host0]. *)
Definition clinic_result (nm : string) : doctor :=
  Doctor (PStr nm) (PStr "No address") (PStr "No rating") (PInt 0) 0%float PNone.

Definition first_twelve : list doctor :=
  (fun i => clinic_result (pretty i)) <$> seq 1 12.

(** The geocoder knows one position, the search three dentists, and the
    IP service is down. *)
Definition bangalore : world :=
  World (fun _ => HttpJson (geocoded (PFloat 12.5%float) (PFloat 77.75%float)))
        HttpFail
        (fun _ _ _ => HttpJson (found "OK" [clinic "A"; clinic "B"; clinic "C"])).

End Sample.

(* ===================================================================== *)
(** ** Facts about the effect layer *)
(* ===================================================================== *)

Lemma calls_bind {A B} (m : io A) (k : A -> io B) :
  calls (io_bind m k) =
  calls m ++ match outcome m with inl _ => [] | inr a => calls (k a) end.
Proof.
  destruct m as [log [e|a]]; unfold calls; simpl.
  - by rewrite app_nil_r.
  - by destruct (k a).
Qed.

Lemma outcome_bind {A B} (m : io A) (k : A -> io B) :
  outcome (io_bind m k) =
  match outcome m with inl e => inl e | inr a => outcome (k a) end.
Proof.
  destruct m as [log [e|a]]; unfold outcome; simpl; [done|].
  by destruct (k a).
Qed.

Lemma calls_catch {A} (m : io A) (handler : exn -> io A) :
  calls (io_catch m handler) =
  calls m ++ match outcome m with inl e => calls (handler e) | inr _ => [] end.
Proof.
  destruct m as [log [e|a]]; unfold calls; simpl.
  - by destruct (handler e).
  - by rewrite app_nil_r.
Qed.

Lemma outcome_catch {A} (m : io A) (handler : exn -> io A) :
  outcome (io_catch m handler) =
  match outcome m with inl e => outcome (handler e) | inr a => inr a end.
Proof.
  destruct m as [log [e|a]]; unfold outcome; simpl; [|done].
  by destruct (handler e).
Qed.

Lemma outcome_lift {A} (r : exn + A) : outcome (io_lift r) = r.
Proof. done. Qed.

Lemma outcome_request c body : outcome (request c (HttpJson body)) = inr body.
Proof. done. Qed.

Lemma silent_ret {A} (a : A) : silent (io_ret a).
Proof. done. Qed.

Lemma silent_lift {A} (r : exn + A) : silent (io_lift r).
Proof. done. Qed.

Lemma silent_bind {A B} (m : io A) (k : A -> io B) :
  silent m -> (forall a, silent (k a)) -> silent (io_bind m k).
Proof.
  unfold silent. intros Hm Hk. rewrite calls_bind, Hm. simpl.
  destruct (outcome m); [done | apply Hk].
Qed.

Lemma silent_if {A} (b : bool) (m1 m2 : io A) :
  silent m1 -> silent m2 -> silent (if b then m1 else m2).
Proof. by destruct b. Qed.

Create HintDb silent_db.
#[local] Hint Resolve silent_ret silent_lift silent_bind silent_if : silent_db.

Lemma calls_request_bind {B} c r (k : pyval -> io B) :
  (forall a, silent (k a)) -> calls (io_bind (request c r) k) = [c].
Proof.
  intros Hk. rewrite calls_bind. simpl.
  destruct r; simpl; [done|]. by rewrite Hk.
Qed.

(* ===================================================================== *)
(** ** Facts about the tool *)
(* ===================================================================== *)

Section ToolFacts.

Variable h : host.

Lemma geocode_city_calls w city :
  calls (geocode_city h w city) = [GeocodeCall city (API_KEY h)].
Proof.
  unfold geocode_city. apply calls_request_bind.
  intros r. auto 20 with silent_db.
Qed.

Lemma get_location_from_ip_calls w :
  calls (get_location_from_ip w) = [IpLookupCall].
Proof.
  unfold get_location_from_ip. rewrite calls_catch.
  rewrite calls_request_bind by (intros r; auto 20 with silent_db).
  by destruct (outcome _).
Qed.

(** [get_location_from_ip] returns whatever the service does. *)
Lemma get_location_from_ip_returns w :
  exists r, outcome (get_location_from_ip w) = inr r.
Proof.
  unfold get_location_from_ip. rewrite outcome_catch.
  destruct (outcome _) as [e|r]; eauto.
Qed.

(** With two non-zero coordinates the origin is taken as given. *)
Lemma resolve_location_direct w city lat lng :
  truthy (PFloat lat) = true -> truthy (PFloat lng) = true ->
  resolve_location h w city (Some lat) (Some lng) =
  ([], inr (Some (PFloat lat, PFloat lng, str_or city "your area"))).
Proof.
  intros Hlat Hlng. unfold resolve_location.
  cbn [of_opt_float]. rewrite Hlat, Hlng. cbn [andb negb].
  rewrite andb_false_r. unfold settle. cbn [io_bind io_ret fst snd].
  by rewrite Hlat, Hlng.
Qed.

Lemma settle_calls w city lat lng :
  calls (settle h w city lat lng) =
  if truthy lat && truthy lng then [] else [IpLookupCall].
Proof.
  unfold settle. destruct (truthy lat && truthy lng); [done|].
  cbn [negb]. rewrite calls_bind, get_location_from_ip_calls.
  destruct (outcome _) as [e|[ip|]]; done.
Qed.

Lemma resolve_location_calls w city lat lng :
  Forall is_lookup (calls (resolve_location h w city lat lng)).
Proof.
  unfold resolve_location. rewrite calls_bind.
  apply Forall_app. split.
  - destruct (_ && _); [rewrite geocode_city_calls|]; by repeat constructor.
  - destruct (outcome _) as [e|coords]; [constructor|].
    rewrite settle_calls. destruct (_ && _); by repeat constructor.
Qed.

(** The run, once the origin is known: one search request and what
    [present] makes of its answer. *)
Lemma find_doctors_eq w specialty city lat lng radius_km :
  find_doctors h w specialty city lat lng radius_km =
  match resolve_location h w city lat lng with
  | (log, inl e) => (log, inl e)
  | (log, inr None) =>
      (log, inr (Error "Unable to detect your location. Please provide a city name."))
  | (log, inr (Some (la, ln, label))) =>
      let location := str h la +:+ "," +:+ str h ln in
      let radius := ((radius_km * 1000) `min` 50000)%Z in
      let keyword := keyword_of specialty in
      (log ++ [NearbySearchCall location radius keyword (API_KEY h)],
       match places_api w location radius keyword with
       | HttpFail => inl RequestError
       | HttpJson resp => present h specialty radius_km la ln label resp
       end)
  end.
Proof.
  unfold find_doctors.
  destruct (resolve_location h w city lat lng) as [log [e|[[[la ln] label]|]]];
    cbn [io_bind].
  - done.
  - unfold nearby_search, request, io_lift. cbn.
    destruct (places_api w _ _ _); cbn; by rewrite ?app_nil_r.
  - cbn. by rewrite app_nil_r.
Qed.

Lemma lookup_not_search log location radius keyword key :
  Forall is_lookup log -> NearbySearchCall location radius keyword key ∉ log.
Proof.
  intros Hlog Hin. rewrite Forall_forall in Hlog. exact (Hlog _ Hin).
Qed.

(** A search request in the log is the one request of the run: the origin
    was resolved, the parameters are the function's, and the run ends as
    [present] reads the answer. *)
Lemma search_call_inv w specialty city lat lng radius_km location radius keyword key :
  NearbySearchCall location radius keyword key ∈
    calls (find_doctors h w specialty city lat lng radius_km) ->
  exists la ln label,
    outcome (resolve_location h w city lat lng) = inr (Some (la, ln, label)) /\
    location = str h la +:+ "," +:+ str h ln /\
    radius = ((radius_km * 1000) `min` 50000)%Z /\
    keyword = keyword_of specialty /\
    key = API_KEY h /\
    outcome (find_doctors h w specialty city lat lng radius_km) =
    match places_api w location radius keyword with
    | HttpFail => inl RequestError
    | HttpJson resp => present h specialty radius_km la ln label resp
    end.
Proof.
  rewrite find_doctors_eq.
  pose proof (resolve_location_calls w city lat lng) as Hlog.
  destruct (resolve_location h w city lat lng) as [log [e|[[[la ln] label]|]]];
    unfold calls, outcome in *; cbn [fst snd] in *; intros Hin.
  - by apply lookup_not_search in Hin.
  - apply elem_of_app in Hin as [Hin|Hin]; [by apply lookup_not_search in Hin|].
    apply list_elem_of_singleton in Hin. injection Hin as -> -> -> ->.
    by exists la, ln, label.
  - by apply lookup_not_search in Hin.
Qed.

(** Conversely, a resolved origin leads to exactly that request. *)
Lemma find_doctors_resolved w specialty city lat lng radius_km la ln label :
  outcome (resolve_location h w city lat lng) = inr (Some (la, ln, label)) ->
  let location := str h la +:+ "," +:+ str h ln in
  let radius := ((radius_km * 1000) `min` 50000)%Z in
  NearbySearchCall location radius (keyword_of specialty) (API_KEY h) ∈
    calls (find_doctors h w specialty city lat lng radius_km) /\
  outcome (find_doctors h w specialty city lat lng radius_km) =
  match places_api w location radius (keyword_of specialty) with
  | HttpFail => inl RequestError
  | HttpJson resp => present h specialty radius_km la ln label resp
  end.
Proof.
  rewrite find_doctors_eq.
  destruct (resolve_location h w city lat lng) as [log o].
  unfold calls, outcome. cbn [fst snd]. intros ->. cbn [fst snd]. split; [|done].
  apply elem_of_app. right. apply list_elem_of_singleton. done.
Qed.

(** C3: whatever the arguments and the services' answers, a nearby-search
    request of the run carries the radius [min(radius_km * 1000, 50000)]
    in meters; it never exceeds 50000, and for [radius_km = 200] it is
    50000. *)
Theorem nearby_radius_capped w specialty city lat lng radius_km
    location radius keyword key :
  NearbySearchCall location radius keyword key ∈
    calls (find_doctors h w specialty city lat lng radius_km) ->
  radius = ((radius_km * 1000) `min` 50000)%Z /\
  (radius <= 50000)%Z /\
  (radius_km = 200%Z -> radius = 50000%Z).
Proof.
  intros Hin.
  apply search_call_inv in Hin as (la & ln & label & _ & _ & -> & _).
  split; [done|]. split; [lia|]. intros ->. reflexivity.
Qed.

(** C8: when the nearby-search service answers the run's request with
    status "REQUEST_DENIED", the tool returns the error "Google Places API
    not enabled or billing inactive."; with status "OVER_QUERY_LIMIT" it
    returns the error "API quota exceeded.".  Either way no listing is
    produced. *)
Theorem upstream_refusals_reported w specialty city lat lng radius_km
    location radius keyword key resp :
  NearbySearchCall location radius keyword key ∈
    calls (find_doctors h w specialty city lat lng radius_km) ->
  places_api w location radius keyword = HttpJson resp ->
  (get resp "status" PNone = inr (PStr "REQUEST_DENIED") ->
   outcome (find_doctors h w specialty city lat lng radius_km) =
   inr (Error "Google Places API not enabled or billing inactive.")) /\
  (get resp "status" PNone = inr (PStr "OVER_QUERY_LIMIT") ->
   outcome (find_doctors h w specialty city lat lng radius_km) =
   inr (Error "API quota exceeded.")).
Proof.
  intros Hin Hresp.
  apply search_call_inv in Hin as (la & ln & label & _ & _ & _ & _ & _ & ->).
  rewrite Hresp. unfold present.
  split; intros ->; reflexivity.
Qed.

(** The loop completes exactly when every element converts, and then the
    results stand in the order of the elements. *)
Lemma collect_Forall2 {A} (f : pyval -> exn + A) l ds :
  collect f l = inr ds <-> Forall2 (fun p d => f p = inr d) l ds.
Proof.
  revert ds. induction l as [|p ps IH]; intros ds; cbn [collect].
  - split; [intros [= <-]; constructor | by inversion 1].
  - unfold exn_bind at 1. destruct (f p) as [e|d] eqn:Hp.
    + split; [done | inversion 1; congruence].
    + unfold exn_bind. destruct (collect f ps) as [e|ds'] eqn:Hps.
      * split; [done|]. inversion 1 as [|? d' ? ds'' ? Hrest]; subst.
        apply IH in Hrest. congruence.
      * split.
        -- intros [= <-]. constructor; [done | by apply IH].
        -- inversion 1 as [|? d' ? ds'' Hd Hrest]; subst.
           apply IH in Hrest. congruence.
Qed.

Lemma render_lines_length results :
  length (render_lines h results) = length results.
Proof. apply length_imap. Qed.

Lemma render_lines_lookup results i :
  render_lines h results !! i = render_line h (S i) <$> results !! i.
Proof. unfold render_lines. by rewrite list_lookup_imap. Qed.

(** What [present] does with an answer that is neither refused nor
    empty and whose first twelve places all convert. *)
Lemma present_listing specialty radius_km la ln label resp status found results :
  get resp "status" PNone = inr status ->
  eq_str status "REQUEST_DENIED" = false ->
  eq_str status "OVER_QUERY_LIMIT" = false ->
  get resp "results" (PList []) = inr (PList found) ->
  found <> [] ->
  Forall2 (fun p d => doctor_of h la ln p = inr d) (take 12 found) results ->
  present h specialty radius_km la ln label resp =
  inr (Listing (render_page specialty label (render_lines h results))).
Proof.
  intros Hst Hden Hquota Hfound Hne Hconv. unfold present.
  rewrite Hst. cbn [exn_bind]. rewrite Hden. cbn [exn_bind].
  rewrite Hquota, Hfound. cbn [exn_bind slice12].
  destruct found as [|p0 ps]; [done|]. cbn [take truthy negb iter exn_bind].
  apply collect_Forall2 in Hconv. cbn [take] in Hconv. by rewrite Hconv.
Qed.

Lemma present_empty specialty radius_km la ln label resp status found :
  get resp "status" PNone = inr status ->
  eq_str status "REQUEST_DENIED" = false ->
  eq_str status "OVER_QUERY_LIMIT" = false ->
  get resp "results" (PList []) = inr (PList found) ->
  take 12 found = [] ->
  present h specialty radius_km la ln label resp =
  inr (Error ("No doctors found within " +:+ pretty radius_km +:+ " km of " +:+
              label +:+ ".")).
Proof.
  intros Hst Hden Hquota Hfound Hempty. unfold present.
  rewrite Hst. cbn [exn_bind]. rewrite Hden. cbn [exn_bind].
  rewrite Hquota, Hfound. cbn [exn_bind slice12]. by rewrite Hempty.
Qed.

(** The rating of a result is the place's, or "No rating". *)
Lemma doctor_of_rating la ln (p : gmap string pyval) d :
  doctor_of h la ln (PDict p) = inr d ->
  rating d = default (PStr "No rating") (p !! "rating").
Proof.
  unfold doctor_of, exn_bind. cbn [get].
  repeat case_match; try done. by intros [= <-].
Qed.

(** C9: when the origin is resolved with label [label], the search answer
    is neither refused nor over quota, and its result list cut to twelve
    is empty, the tool returns the error "No doctors found within
    {radius_km} km of {label}." with the radius as it was requested, not
    the capped one. *)
Theorem no_results_reported w specialty city lat lng radius_km
    la ln label resp status found :
  outcome (resolve_location h w city lat lng) = inr (Some (la, ln, label)) ->
  places_api w (str h la +:+ "," +:+ str h ln)
    ((radius_km * 1000) `min` 50000)%Z (keyword_of specialty) = HttpJson resp ->
  get resp "status" PNone = inr status ->
  eq_str status "REQUEST_DENIED" = false ->
  eq_str status "OVER_QUERY_LIMIT" = false ->
  get resp "results" (PList []) = inr (PList found) ->
  take 12 found = [] ->
  outcome (find_doctors h w specialty city lat lng radius_km) =
  inr (Error ("No doctors found within " +:+ pretty radius_km +:+ " km of " +:+
              label +:+ ".")).
Proof.
  intros Hres Hresp Hst Hden Hquota Hfound Hempty.
  destruct (find_doctors_resolved w specialty city lat lng radius_km _ _ _ Hres)
    as [_ ->].
  rewrite Hresp. by eapply present_empty.
Qed.

Lemma str_or_cases (a : option string) (b : string) :
  str_or a b =
  match a with
  | Some s => if String.eqb s "" then b else s
  | None => b
  end.
Proof.
  destruct a as [s|]; [|done]. unfold str_or, truthy. by destruct (String.eqb s "").
Qed.

(** Only an object converts, and the result carries its name. *)
Lemma doctor_of_name la ln v d :
  doctor_of h la ln v = inr d ->
  exists p : gmap string pyval,
    v = PDict p /\ name d = default (PStr "Unknown") (p !! "name").
Proof.
  destruct v as [| | | | | |p]; try done.
  intros Hd. exists p. split; [done|].
  revert Hd. unfold doctor_of, exn_bind. cbn [get].
  repeat case_match; try done. by intros [= <-].
Qed.

(** C6: of the places the search returned, the first twelve are kept, in
    the order they came, and each is rendered as one line numbered from 1:
    when the answer is accepted and each kept place converts to a result,
    the tool returns the text made of the header line, the lines joined
    by newlines and the closing prompt; there are [min 12 (length found)]
    lines, and the line at position [i] is that of the place at position
    [i] of the answer: it starts with the number [i + 1] and the place's
    name, followed by rating, review count, distance and opening state.
    From twenty places, twelve lines. *)
Theorem listing_keeps_first_twelve w specialty city lat lng radius_km
    la ln label resp status found results :
  outcome (resolve_location h w city lat lng) = inr (Some (la, ln, label)) ->
  places_api w (str h la +:+ "," +:+ str h ln)
    ((radius_km * 1000) `min` 50000)%Z (keyword_of specialty) = HttpJson resp ->
  get resp "status" PNone = inr status ->
  eq_str status "REQUEST_DENIED" = false ->
  eq_str status "OVER_QUERY_LIMIT" = false ->
  get resp "results" (PList []) = inr (PList found) ->
  found <> [] ->
  Forall2 (fun p d => doctor_of h la ln p = inr d) (take 12 found) results ->
  let newline := String (ascii_of_nat 10) "" in
  exists lines,
    outcome (find_doctors h w specialty city lat lng radius_km) =
      inr (Listing
             (newline +:+ "    Here are the top " +:+
              match specialty with
              | Some s => if String.eqb s "" then "doctors" else s
              | None => "doctors"
              end +:+ " near " +:+ label +:+ ":" +:+ newline +:+ newline +:+
              "    " +:+ String.concat newline lines +:+ newline +:+ newline +:+
              "    Do you want directions, phone number, or another specialty?" +:+
              newline +:+ "    ")) /\
    length lines = 12 `min` length found /\
    (forall i, i < 12 `min` length found ->
       exists (p : gmap string pyval) d,
         found !! i = Some (PDict p) /\
         doctor_of h la ln (PDict p) = inr d /\
         lines !! i =
           Some (pretty (S i) +:+ ". " +:+
                 str h (default (PStr "Unknown") (p !! "name")) +:+ " • " +:+
                 str h (rating d) +:+ " " +:+ str h (reviews d) +:+ " • " +:+
                 float_str h (distance_km d) +:+ " • " +:+ str h (open_now d))) /\
    (length found = 20 -> length lines = 12).
Proof.
  intros Hres Hresp Hst Hden Hquota Hfound Hne Hconv newline.
  destruct (find_doctors_resolved w specialty city lat lng radius_km _ _ _ Hres)
    as [_ ->].
  rewrite Hresp.
  assert (length results = 12 `min` length found) as Hlen.
  { rewrite <- (Forall2_length _ _ _ Hconv). apply length_take. }
  exists (render_lines h results).
  split.
  { rewrite (present_listing specialty radius_km la ln label resp status found
               results Hst Hden Hquota Hfound Hne Hconv).
    unfold render_page. by rewrite str_or_cases. }
  split; [by rewrite render_lines_length|]. split.
  - intros i Hi.
    destruct (lookup_lt_is_Some_2 results i) as [d Hd]; [lia|].
    destruct (Forall2_lookup_r _ _ _ _ _ Hconv Hd) as (v & Hv & Hvd).
    apply lookup_take_Some in Hv as [Hv _].
    destruct (doctor_of_name _ _ _ _ Hvd) as (p & -> & Hname).
    exists p, d. split; [done|]. split; [done|].
    rewrite render_lines_lookup, Hd. cbn [fmap option_fmap option_map].
    unfold render_line. by rewrite Hname.
  - intros H20. by rewrite render_lines_length, Hlen, H20.
Qed.

(** C10: a place that has no "rating" member gets the string "No rating"
    as its rating, and that string stands in the rating position of the
    place's line in the listing the tool returns. *)
Theorem missing_rating_rendered w specialty city lat lng radius_km
    la ln label resp status found results i (p : gmap string pyval) :
  outcome (resolve_location h w city lat lng) = inr (Some (la, ln, label)) ->
  places_api w (str h la +:+ "," +:+ str h ln)
    ((radius_km * 1000) `min` 50000)%Z (keyword_of specialty) = HttpJson resp ->
  get resp "status" PNone = inr status ->
  eq_str status "REQUEST_DENIED" = false ->
  eq_str status "OVER_QUERY_LIMIT" = false ->
  get resp "results" (PList []) = inr (PList found) ->
  Forall2 (fun p d => doctor_of h la ln p = inr d) (take 12 found) results ->
  i < 12 ->
  found !! i = Some (PDict p) ->
  p !! "rating" = None ->
  exists d,
    results !! i = Some d /\
    rating d = PStr "No rating" /\
    render_lines h results !! i =
      Some (pretty (S i) +:+ ". " +:+ str h (name d) +:+ " • " +:+
            "No rating" +:+ " " +:+ str h (reviews d) +:+ " • " +:+
            str h (PFloat (distance_km d)) +:+ " • " +:+ str h (open_now d)) /\
    outcome (find_doctors h w specialty city lat lng radius_km) =
      inr (Listing (render_page specialty label (render_lines h results))).
Proof.
  intros Hres Hresp Hst Hden Hquota Hfound Hconv Hi Hp Hrating.
  assert (take 12 found !! i = Some (PDict p)) as Hkept.
  { by apply lookup_take_Some. }
  destruct (Forall2_lookup_l _ _ _ _ _ Hconv Hkept) as (d & Hd & Hpd).
  apply doctor_of_rating in Hpd as Hr. rewrite Hrating in Hr. cbn in Hr.
  exists d. split; [done|]. split; [done|]. split.
  - rewrite render_lines_lookup, Hd. cbn [fmap option_fmap option_map].
    unfold render_line. by rewrite Hr.
  - destruct (find_doctors_resolved w specialty city lat lng radius_km _ _ _ Hres)
      as [_ ->].
    rewrite Hresp. eapply present_listing; eauto.
    intros ->. done.
Qed.

Lemma io_bind_ret {A B} (a : A) (k : A -> io B) : io_bind (io_ret a) k = k a.
Proof. unfold io_bind, io_ret. by destruct (k a). Qed.

(** The log of a run starts with the log of the location step. *)
Lemma find_doctors_calls_resolve w specialty city lat lng radius_km :
  exists rest,
    calls (find_doctors h w specialty city lat lng radius_km) =
    calls (resolve_location h w city lat lng) ++ rest.
Proof.
  rewrite find_doctors_eq.
  destruct (resolve_location h w city lat lng) as [log [e|[[[la ln] label]|]]];
    unfold calls; cbn [fst].
  - exists []. by rewrite app_nil_r.
  - eauto.
  - exists []. by rewrite app_nil_r.
Qed.

(** Without a city the location step is [settle] on the arguments. *)
Lemma resolve_location_no_city w lat lng :
  resolve_location h w None lat lng =
  settle h w None (of_opt_float lat) (of_opt_float lng).
Proof. unfold resolve_location. cbn [of_opt_str truthy andb]. by rewrite io_bind_ret. Qed.

(** With a city and a missing coordinate the geocoder is asked first. *)
Lemma resolve_location_geocodes w city lat lng :
  truthy (PStr city) = true ->
  truthy (of_opt_float lat) && truthy (of_opt_float lng) = false ->
  resolve_location h w (Some city) lat lng =
  (coords <- geocode_city h w city ;; settle h w (Some city) coords.1 coords.2)%io.
Proof.
  intros Hcity Hmissing. unfold resolve_location.
  cbn [of_opt_str default]. by rewrite Hcity, Hmissing.
Qed.

(** C1, at a point on the equator: latitude 0.0 and longitude 77.75 are
    both supplied, and the run still starts with an IP lookup when no city
    is given, and with a geocoding request when one is; with the IP
    service down and no city, the supplied point is given up for the
    "Unable to detect" error. *)
Theorem zero_latitude_is_looked_up w geo places specialty radius_km :
  head (calls (find_doctors h w specialty None
                 (Some 0%float) (Some 77.75%float) radius_km)) =
    Some IpLookupCall /\
  head (calls (find_doctors h w specialty (Some "Quito")
                 (Some 0%float) (Some (-78.5)%float) radius_km)) =
    Some (GeocodeCall "Quito" (API_KEY h)) /\
  find_doctors h (World geo HttpFail places) specialty None
    (Some 0%float) (Some 77.75%float) radius_km =
    ([IpLookupCall],
     inr (Error "Unable to detect your location. Please provide a city name.")).
Proof.
  split; [|split].
  - destruct (find_doctors_calls_resolve w specialty None
                (Some 0%float) (Some 77.75%float) radius_km) as [rest ->].
    by rewrite resolve_location_no_city, settle_calls.
  - destruct (find_doctors_calls_resolve w specialty (Some "Quito")
                (Some 0%float) (Some (-78.5)%float) radius_km) as [rest ->].
    rewrite resolve_location_geocodes by done.
    by rewrite calls_bind, geocode_city_calls.
  - rewrite find_doctors_eq, resolve_location_no_city. reflexivity.
Qed.

(** C2, with the geocoder unreachable: the exception of the geocoding
    request leaves [find_doctors]; so does the [IndexError] of an "OK"
    geocoding answer that lists no result, and so does the exception of a
    failed search request. *)
Theorem request_failures_escape ip geo places specialty radius_km :
  outcome (find_doctors h (World (fun _ => HttpFail) ip places)
             specialty (Some "Paris") None None radius_km) =
    inl RequestError /\
  outcome (find_doctors h
             (World (fun _ => HttpJson (Sample.obj [("status", PStr "OK");
                                                    ("results", PList [])]))
                    ip places)
             specialty (Some "Paris") None None radius_km) =
    inl IndexError /\
  outcome (find_doctors h (World geo ip (fun _ _ _ => HttpFail))
             specialty None (Some 12.5%float) (Some 77.75%float) radius_km) =
    inl RequestError.
Proof.
  split; [|split].
  - rewrite find_doctors_eq, resolve_location_geocodes by done.
    reflexivity.
  - rewrite find_doctors_eq, resolve_location_geocodes by done.
    reflexivity.
  - rewrite find_doctors_eq, resolve_location_direct by done.
    reflexivity.
Qed.

(** C4, for a city on the equator: the geocoder answers "OK" with latitude
    0.0, and the run goes on to the IP lookup; where that lookup places
    the caller in Lima, Lima's is the resolved coordinate. *)
Theorem geocoded_zero_is_looked_up_again ip places specialty radius_km :
  let quito := Sample.geocoded (PFloat 0%float) (PFloat (-78.5)%float) in
  let lima :=
    Sample.ip_located "Lima" "PE" (PFloat (-12)%float) (PFloat (-77)%float) in
  take 2 (calls (find_doctors h (World (fun _ => HttpJson quito) ip places)
                   specialty (Some "Quito") None None radius_km)) =
    [GeocodeCall "Quito" (API_KEY h); IpLookupCall] /\
  outcome (resolve_location h
             (World (fun _ => HttpJson quito) (HttpJson lima) places)
             (Some "Quito") None None) =
    inr (Some (PFloat (-12)%float, PFloat (-77)%float, "Lima, PE")).
Proof.
  intros quito lima. split.
  - destruct (find_doctors_calls_resolve
                (World (fun _ => HttpJson quito) ip places)
                specialty (Some "Quito") None None radius_km) as [rest ->].
    rewrite resolve_location_geocodes by done.
    rewrite calls_bind, geocode_city_calls.
    change (outcome (geocode_city h _ "Quito"))
      with (inr (PFloat 0%float, PFloat (-78.5)%float) : exn + pyval * pyval).
    cbv beta iota. by rewrite settle_calls.
  - rewrite resolve_location_geocodes by done. reflexivity.
Qed.

(** C5, for a specialty of three spaces: the keyword of the search request
    is the empty string. *)
Theorem blank_specialty_sends_empty_keyword w radius_km :
  calls (find_doctors h w (Some "   ") None
           (Some 12.5%float) (Some 77.75%float) radius_km) =
  [NearbySearchCall (str h (PFloat 12.5%float) +:+ "," +:+ str h (PFloat 77.75%float))
     ((radius_km * 1000) `min` 50000)%Z "" (API_KEY h)].
Proof.
  rewrite find_doctors_eq, resolve_location_direct by done.
  reflexivity.
Qed.

(** Two supplied, non-zero coordinates are the origin: the run makes the
    search request and no other, and the label is the city or "your
    area". *)
Theorem nonzero_coordinates_used_directly w specialty city lat lng radius_km :
  truthy (PFloat lat) = true -> truthy (PFloat lng) = true ->
  outcome (resolve_location h w city (Some lat) (Some lng)) =
    inr (Some (PFloat lat, PFloat lng, str_or city "your area")) /\
  calls (find_doctors h w specialty city (Some lat) (Some lng) radius_km) =
    [NearbySearchCall (str h (PFloat lat) +:+ "," +:+ str h (PFloat lng))
       ((radius_km * 1000) `min` 50000)%Z (keyword_of specialty) (API_KEY h)].
Proof.
  intros Hlat Hlng.
  rewrite find_doctors_eq, resolve_location_direct by done. done.
Qed.

(** What [geocode_city] returns on an "OK" answer: the position of the
    first result. *)
Lemma geocode_city_ok w city (r : gmap string pyval) first rest geometry loc glat glng :
  geocode_api w city = HttpJson (PDict r) ->
  r !! "status" = Some (PStr "OK") ->
  r !! "results" = Some (PList (first :: rest)) ->
  getitem first "geometry" = inr geometry ->
  getitem geometry "location" = inr loc ->
  getitem loc "lat" = inr glat ->
  getitem loc "lng" = inr glng ->
  outcome (geocode_city h w city) = inr (glat, glng).
Proof.
  intros Hresp Hst Hres Hgeo Hloc Hlat Hlng.
  assert (get (PDict r) "status" PNone = inr (PStr "OK")) as Hst'.
  { cbn [get]. by rewrite Hst. }
  assert (getitem (PDict r) "results" = inr (PList (first :: rest))) as Hres'.
  { cbn [getitem]. by rewrite Hres. }
  assert (getitem0 (PList (first :: rest)) = inr first) as Hfirst by done.
  unfold geocode_city. rewrite Hresp.
  rewrite outcome_bind, outcome_request. cbv beta iota.
  rewrite outcome_bind, outcome_lift, Hst'. cbv beta iota.
  change (eq_str (PStr "OK") "OK") with true. cbv beta iota.
  rewrite outcome_bind, outcome_lift, Hres'. cbv beta iota.
  rewrite outcome_bind, outcome_lift, Hfirst. cbv beta iota.
  rewrite outcome_bind, outcome_lift, Hgeo. cbv beta iota.
  rewrite outcome_bind, outcome_lift, Hloc. cbv beta iota.
  rewrite outcome_bind, outcome_lift, Hlat. cbv beta iota.
  rewrite outcome_bind, outcome_lift, Hlng. reflexivity.
Qed.

(** A city, no usable coordinates, and an "OK" geocoding answer whose
    first position has non-zero latitude and longitude: that position is
    the origin, the city is the label, and the IP service is not asked. *)
Theorem geocoded_nonzero_is_origin w city lat lng
    (r : gmap string pyval) first rest geometry loc glat glng :
  truthy (PStr city) = true ->
  truthy (of_opt_float lat) && truthy (of_opt_float lng) = false ->
  geocode_api w city = HttpJson (PDict r) ->
  r !! "status" = Some (PStr "OK") ->
  r !! "results" = Some (PList (first :: rest)) ->
  getitem first "geometry" = inr geometry ->
  getitem geometry "location" = inr loc ->
  getitem loc "lat" = inr glat ->
  getitem loc "lng" = inr glng ->
  truthy glat = true -> truthy glng = true ->
  resolve_location h w (Some city) lat lng =
  ([GeocodeCall city (API_KEY h)], inr (Some (glat, glng, city))).
Proof.
  intros Hcity Hmissing Hresp Hst Hres Hgeo Hloc Hlat Hlng Htlat Htlng.
  pose proof (geocode_city_ok w city r first rest geometry loc glat glng
                Hresp Hst Hres Hgeo Hloc Hlat Hlng) as Hout.
  pose proof (geocode_city_calls w city) as Hcalls.
  rewrite resolve_location_geocodes by done.
  destruct (geocode_city h w city) as [log o].
  unfold calls, outcome in *. cbn [fst snd] in *. subst log o.
  unfold io_bind, settle. cbn [fst snd]. rewrite Htlat, Htlng.
  cbn [andb negb io_ret app]. unfold str_or. by rewrite Hcity.
Qed.

(** A city and no usable coordinates, and a geocoding answer whose status
    is not "OK": the run goes on to the IP lookup. *)
Theorem geocoding_refusal_falls_back w city lat lng resp status :
  truthy (PStr city) = true ->
  truthy (of_opt_float lat) && truthy (of_opt_float lng) = false ->
  geocode_api w city = HttpJson resp ->
  get resp "status" PNone = inr status ->
  eq_str status "OK" = false ->
  calls (resolve_location h w (Some city) lat lng) =
  [GeocodeCall city (API_KEY h); IpLookupCall].
Proof.
  intros Hcity Hmissing Hresp Hst Hno.
  rewrite resolve_location_geocodes by done.
  rewrite calls_bind, geocode_city_calls.
  assert (outcome (geocode_city h w city) = inr (PNone, PNone)) as ->.
  { unfold geocode_city. rewrite Hresp.
    unfold request, io_lift, io_bind, outcome. cbn [snd].
    rewrite Hst. cbn [snd]. by rewrite Hno. }
  cbv beta iota. by rewrite settle_calls.
Qed.

(** The keyword: "doctor" without a specialty or with the empty one, the
    stripped specialty otherwise. *)
Theorem keyword_cases :
  keyword_of None = "doctor" /\
  keyword_of (Some "") = "doctor" /\
  (forall s, String.eqb s "" = false -> keyword_of (Some s) = strip s).
Proof.
  split; [done|]. split; [done|].
  intros s Hs. unfold keyword_of, truthy. by rewrite Hs.
Qed.

(** Whatever the IP service does, [get_location_from_ip] returns; and
    when it is unreachable, a run that depends on it returns the "Unable
    to detect" error. *)
Theorem ip_failure_is_an_error_value w specialty radius_km :
  (exists r, outcome (get_location_from_ip w) = inr r) /\
  (ip_api w = HttpFail ->
   outcome (find_doctors h w specialty None None None radius_km) =
   inr (Error "Unable to detect your location. Please provide a city name.")).
Proof.
  split; [apply get_location_from_ip_returns|].
  intros Hip. rewrite find_doctors_eq, resolve_location_no_city.
  unfold settle, get_location_from_ip. rewrite Hip. reflexivity.
Qed.

End ToolFacts.

(* ===================================================================== *)
(** ** Facts about binary64 arithmetic *)
(* ===================================================================== *)

(** Rounding treats a number and its opposite alike, so negation commutes
    with multiplication and division, and swapping the operands of a
    subtraction negates the result unless it is a zero. *)
Module Float64.
#[local] Open Scope float_scope.

Lemma binary_round_aux_opp prec emax s m e l :
  binary_round_aux prec emax (negb s) m e l
  = SFopp (binary_round_aux prec emax s m e l).
Proof.
  unfold binary_round_aux.
  destruct (shr_fexp prec emax m e l) as [mrs' e'].
  cbv zeta.
  destruct (shr_fexp prec emax _ e' loc_Exact) as [mrs'' e''].
  destruct (shr_m mrs''); [reflexivity| |reflexivity].
  destruct (e'' <=? emax - prec)%Z; reflexivity.
Qed.

Lemma SFmul_opp prec emax x y :
  SFmul prec emax (SFopp x) y = SFopp (SFmul prec emax x y).
Proof.
  destruct x as [sx|sx| |sx mx ex], y as [sy|sy| |sy my ey]; cbn;
    rewrite <- ?negb_xorb_l; try reflexivity.
  apply binary_round_aux_opp.
Qed.

Lemma SFdiv_opp prec emax x y :
  SFdiv prec emax (SFopp x) y = SFopp (SFdiv prec emax x y).
Proof.
  destruct x as [sx|sx| |sx mx ex], y as [sy|sy| |sy my ey]; cbn;
    rewrite <- ?negb_xorb_l; try reflexivity.
  destruct (SFdiv_core_binary prec emax (Z.pos mx) ex (Z.pos my) ey) as [[mz ez] lz].
  apply binary_round_aux_opp.
Qed.

Lemma SFmul_comm prec emax x y :
  SFmul prec emax x y = SFmul prec emax y x.
Proof.
  destruct x as [sx|sx| |sx mx ex], y as [sy|sy| |sy my ey]; cbn;
    rewrite ?(xorb_comm sx sy); try reflexivity.
  now rewrite Pos.mul_comm, Z.add_comm.
Qed.

Lemma binary_normalize_opp prec emax m e :
  m <> 0%Z ->
  binary_normalize prec emax (- m) e false
  = SFopp (binary_normalize prec emax m e false).
Proof.
  destruct m as [|m|m]; intros Hm; [easy| |].
  - change (- Z.pos m)%Z with (Z.neg m). unfold binary_normalize, binary_round.
    destruct (shl_align m e _) as [mz ez].
    apply (binary_round_aux_opp prec emax false).
  - change (- Z.neg m)%Z with (Z.pos m). unfold binary_normalize, binary_round.
    destruct (shl_align m e _) as [mz ez].
    pose proof (binary_round_aux_opp prec emax false (Z.pos mz) ez loc_Exact) as H.
    cbn [negb] in H. rewrite H.
    now destruct (binary_round_aux prec emax false (Z.pos mz) ez loc_Exact)
      as [[]|[]| |[] ? ?].
Qed.

Lemma SFsub_swap prec emax x y :
  SFsub prec emax y x = SFopp (SFsub prec emax x y)
  \/ SFsub prec emax y x = SFsub prec emax x y.
Proof.
  destruct x as [sx|sx| |sx mx ex], y as [sy|sy| |sy my ey];
    try (destruct sx; destruct sy; cbn; now auto);
    try (destruct sx; cbn; now auto); try (destruct sy; cbn; now auto);
    try (cbn; now auto).
  unfold SFsub. rewrite (Z.min_comm ey ex).
  set (a := cond_Zopp sx _). set (b := cond_Zopp sy _).
  destruct (Z.eq_dec (a - b)%Z 0%Z) as [E|E].
  - right. replace (b - a)%Z with 0%Z by lia. now rewrite E.
  - left. replace (b - a)%Z with (- (a - b))%Z by lia.
    now apply binary_normalize_opp.
Qed.


(** *** Magnitude of a rounded product *)

Lemma digits2_pos_log2 p : Z.pos (digits2_pos p) = Z.succ (Z.log2 (Z.pos p)).
Proof.
  assert (H : forall q, digits2_pos q = Pos.size q)
    by (induction q; cbn; congruence).
  destruct p; cbn [Z.log2 digits2_pos]; rewrite ?H; lia.
Qed.

Lemma Zdigits2_mono a b : (0 <= a <= b)%Z -> (Zdigits2 a <= Zdigits2 b)%Z.
Proof.
  intros [Ha Hab]. destruct a as [|a|a]; [|destruct b as [|b|b]|]; try lia.
  - destruct b; cbn; lia.
  - cbn [Zdigits2]. rewrite !digits2_pos_log2.
    pose proof (Z.log2_le_mono _ _ Hab). lia.
Qed.

Lemma Zdigits2_mul p q :
  (Zdigits2 (Z.pos (p * q)) <= Zdigits2 (Z.pos p) + Zdigits2 (Z.pos q))%Z.
Proof.
  cbn [Zdigits2]. rewrite !digits2_pos_log2, Pos2Z.inj_mul.
  pose proof (Z.log2_mul_above (Z.pos p) (Z.pos q)). lia.
Qed.

Lemma Zdigits2_succ a : (0 <= a)%Z -> (Zdigits2 (a + 1) <= Zdigits2 a + 1)%Z.
Proof.
  intros Ha. destruct a as [|a|a]; [now vm_compute| |lia].
  transitivity (Zdigits2 (2 * Z.pos a)); [apply Zdigits2_mono; lia|].
  change (2 * Z.pos a)%Z with (Z.pos a~0). cbn [Zdigits2 digits2_pos]. lia.
Qed.

Lemma shr_1_m mrs :
  (0 <= shr_m mrs)%Z -> (0 <= shr_m (shr_1 mrs) <= shr_m mrs)%Z.
Proof. destruct mrs as [[|[p|p|]|p] r s]; cbn; lia. Qed.

Lemma iter_shr_1_m p : forall mrs,
  (0 <= shr_m mrs)%Z -> (0 <= shr_m (SpecFloat.iter_pos shr_1 p mrs) <= shr_m mrs)%Z.
Proof.
  induction p as [p IH|p IH|]; intros mrs H; cbn [SpecFloat.iter_pos].
  - pose proof (shr_1_m mrs H) as H1.
    pose proof (IH _ (proj1 H1)) as H2.
    pose proof (IH _ (proj1 H2)). lia.
  - pose proof (IH _ H) as H1. pose proof (IH _ (proj1 H1)). lia.
  - apply shr_1_m, H.
Qed.

Lemma shr_fexp_bound prec emax m e l mrs e' :
  (0 <= m)%Z -> shr_fexp prec emax m e l = (mrs, e') ->
  (0 <= shr_m mrs <= m)%Z /\
  (e' <= Z.max e (fexp prec emax (Zdigits2 m + e)))%Z.
Proof.
  intros Hm. unfold shr_fexp, shr.
  assert (Hr : shr_m (shr_record_of_loc m l) = m) by (destruct l as [|[]]; reflexivity).
  destruct (fexp prec emax (Zdigits2 m + e) - e)%Z as [|n|n] eqn:Hn;
    intros [= <- <-]; rewrite ?Hr; try lia.
  pose proof (iter_shr_1_m n (shr_record_of_loc m l)) as H. rewrite Hr in H. lia.
Qed.

Lemma round_nearest_even_bound m l :
  (m <= round_nearest_even m l <= m + 1)%Z.
Proof. destruct l as [|[]]; cbn; try destruct (Z.even m); lia. Qed.

(** A value that is a zero or a finite number of sign [s]. *)
Definition SFsigned (s : bool) (f : spec_float) : Prop :=
  match f with
  | S754_zero s' | S754_finite s' _ _ => s' = s
  | _ => False
  end.

(** A value that is a zero or a finite number [m * 2^e] with [e <= k]. *)
Definition SFsmall (k : Z) (f : spec_float) : Prop :=
  match f with
  | S754_zero _ => True
  | S754_finite _ _ e => (e <= k)%Z
  | _ => False
  end.

Lemma binary_round_aux_finite s m e l :
  (0 < m)%Z -> (Zdigits2 m <= 106)%Z -> (e <= 864)%Z ->
  SFsigned s (binary_round_aux prec emax s m e l).
Proof.
  intros Hm Hd He. unfold binary_round_aux.
  destruct (shr_fexp prec emax m e l) as [mrs' e'] eqn:E1.
  apply shr_fexp_bound in E1 as [Hm' He']; [|lia].
  pose proof (round_nearest_even_bound (shr_m mrs') (loc_of_shr_record mrs')) as Hr.
  set (m1 := round_nearest_even _ _) in *.
  destruct (shr_fexp prec emax m1 e' loc_Exact) as [mrs'' e''] eqn:E2.
  apply shr_fexp_bound in E2 as [Hm'' He'']; [|lia].
  assert (Zdigits2 m1 <= 107)%Z.
  { transitivity (Zdigits2 (shr_m mrs' + 1)); [apply Zdigits2_mono; lia|].
    etransitivity; [apply Zdigits2_succ; lia|].
    pose proof (Zdigits2_mono (shr_m mrs') m). lia. }
  destruct (shr_m mrs'') as [|m2|m2]; [reflexivity| |lia].
  destruct (e'' <=? emax - prec)%Z eqn:Hle; [reflexivity|].
  apply Z.leb_gt in Hle. unfold fexp, emin, prec, emax in *. lia.
Qed.

Lemma valid_digits s m e :
  valid_binary (S754_finite s m e) = true ->
  (Z.pos (digits2_pos m) <= 53)%Z.
Proof.
  unfold valid_binary, SpecFloat.valid_binary, bounded, canonical_mantissa, fexp, emin, prec, emax.
  intros [H _]%andb_prop. apply Z.eqb_eq in H. lia.
Qed.

Lemma SFmul_finite x y k1 k2 s1 s2 :
  valid_binary x = true -> valid_binary y = true ->
  SFsmall k1 x -> SFsmall k2 y -> SFsigned s1 x -> SFsigned s2 y ->
  (k1 + k2 <= 864)%Z ->
  SFsigned (xorb s1 s2) (SFmul prec emax x y).
Proof.
  intros Vx Vy Hx Hy Sx Sy Hk.
  destruct x as [sx|sx| |sx mx ex], y as [sy|sy| |sy my ey];
    cbn in Hx, Hy, Sx, Sy; try contradiction; subst; try reflexivity.
  cbn [SFmul]. apply binary_round_aux_finite; [lia| |lia].
  pose proof (Zdigits2_mul mx my). cbn [Zdigits2] in *.
  apply valid_digits in Vx, Vy. lia.
Qed.

Lemma SFleb_small_pos m e mb eb :
  SFleb (S754_finite false m e) (S754_finite false mb eb) = true -> (e <= eb)%Z.
Proof.
  unfold SFleb, SFcompare. destruct (Z.compare_spec e eb); try lia; discriminate.
Qed.

Lemma SFleb_small_neg m e mb eb :
  SFleb (S754_finite true mb eb) (S754_finite true m e) = true -> (e <= eb)%Z.
Proof.
  unfold SFleb, SFcompare. destruct (Z.compare_spec eb e); try lia; discriminate.
Qed.

Lemma SFcompare_refl f : f <> S754_nan -> SFcompare f f = Some Eq.
Proof.
  destruct f as [s|[]| |[] m e]; cbn; try congruence;
    now rewrite Z.compare_refl, Pos.compare_cont_refl.
Qed.


(** *** The same facts on primitive floats *)

Lemma mul_opp_l x y : (- x * y = - (x * y))%float.
Proof.
  apply FloatAxioms.Prim2SF_inj. rewrite FloatAxioms.opp_spec, !FloatAxioms.mul_spec, FloatAxioms.opp_spec. apply SFmul_opp.
Qed.

Lemma div_opp_l x y : (- x / y = - (x / y))%float.
Proof.
  apply FloatAxioms.Prim2SF_inj. rewrite FloatAxioms.opp_spec, !FloatAxioms.div_spec, FloatAxioms.opp_spec. apply SFdiv_opp.
Qed.

Lemma opp_involutive x : (- - x = x)%float.
Proof.
  apply FloatAxioms.Prim2SF_inj. rewrite !FloatAxioms.opp_spec.
  now destruct (Prim2SF x) as [[]|[]| |[] ? ?].
Qed.

Lemma abs_opp x : abs (- x) = abs x.
Proof.
  apply FloatAxioms.Prim2SF_inj.
  rewrite !FloatAxioms.abs_spec, FloatAxioms.opp_spec.
  now destruct (Prim2SF x).
Qed.

Lemma mul_comm x y : (x * y = y * x)%float.
Proof. apply FloatAxioms.Prim2SF_inj. rewrite !FloatAxioms.mul_spec. apply SFmul_comm. Qed.

Lemma sub_swap x y : (y - x = - (x - y))%float \/ (y - x = x - y)%float.
Proof.
  destruct (SFsub_swap prec emax (Prim2SF x) (Prim2SF y)) as [H|H]; [left|right];
    apply FloatAxioms.Prim2SF_inj; rewrite ?FloatAxioms.opp_spec, !FloatAxioms.sub_spec; exact H.
Qed.

(** A value that is a zero or a finite number. *)
Definition SFfinite (f : spec_float) : Prop :=
  match f with
  | S754_zero _ | S754_finite _ _ _ => True
  | _ => False
  end.

Lemma SFsmall_finite k f : SFsmall k f -> SFfinite f.
Proof. now destruct f. Qed.

Lemma SFsigned_finite s f : SFsigned s f -> SFfinite f.
Proof. now destruct f. Qed.

Lemma is_finite_spec x : is_finite x = true <-> SFfinite (Prim2SF x).
Proof.
  unfold is_finite, is_nan, is_infinity. rewrite !FloatAxioms.eqb_spec, FloatAxioms.abs_spec.
  change (Prim2SF infinity) with (S754_infinity false). unfold SFeqb.
  destruct (Prim2SF x) as [s|s| |s m e] eqn:E.
  - cbn. tauto.
  - cbn. destruct s; cbn; intuition discriminate.
  - cbn. intuition discriminate.
  - rewrite SFcompare_refl by discriminate. cbn. tauto.
Qed.

Lemma sub_diag x : is_finite x = true -> (x - x = 0)%float.
Proof.
  intros H%is_finite_spec. apply FloatAxioms.Prim2SF_inj. rewrite FloatAxioms.sub_spec.
  change (Prim2SF 0) with (S754_zero false).
  destruct (Prim2SF x) as [[]| | |s m e]; cbn in H; try contradiction; try reflexivity.
  unfold SF64sub, SFsub. now rewrite Z.sub_diag.
Qed.

Lemma eqb_refl x : is_nan x = false -> (x =? x)%float = true.
Proof. unfold is_nan. now destruct (x =? x)%float. Qed.

(** [lo <= x <= hi], for bounds [-b] and [b], bounds the exponent of [x]. *)
Lemma range_small x mb eb b :
  Prim2SF b = S754_finite false mb eb ->
  (- b <=? x)%float = true -> (x <=? b)%float = true ->
  SFsmall eb (Prim2SF x).
Proof.
  intros Hb. rewrite !FloatAxioms.leb_spec, FloatAxioms.opp_spec, Hb. cbn [SFopp negb].
  destruct (Prim2SF x) as [s|s| |[] m e]; cbn [SFsmall]; try easy.
  - destruct s; discriminate.
  - intros H _. revert H. apply SFleb_small_neg.
  - intros _. apply SFleb_small_pos.
Qed.

Lemma abs_small x mb eb b :
  Prim2SF b = S754_finite false mb eb ->
  (abs x <=? b)%float = true -> SFsmall eb (Prim2SF x).
Proof.
  intros Hb. rewrite FloatAxioms.leb_spec, FloatAxioms.abs_spec, Hb.
  destruct (Prim2SF x) as [s|s| |s m e]; cbn [SFsmall SFabs]; try easy.
  apply SFleb_small_pos.
Qed.

Lemma SFsigned_sign f : SFfinite f -> exists s, SFsigned s f.
Proof. destruct f as [s|s| |s m e]; cbn; try easy; now exists s. Qed.

Lemma mul_finite x y k1 k2 :
  SFsmall k1 (Prim2SF x) -> SFsmall k2 (Prim2SF y) -> (k1 + k2 <= 864)%Z ->
  is_finite (x * y) = true.
Proof.
  intros Hx Hy Hk. apply is_finite_spec. rewrite FloatAxioms.mul_spec.
  destruct (SFsigned_sign _ (SFsmall_finite _ _ Hx)) as [s1 S1].
  destruct (SFsigned_sign _ (SFsmall_finite _ _ Hy)) as [s2 S2].
  eapply SFsigned_finite, (SFmul_finite _ _ k1 k2 s1 s2);
    eauto using FloatAxioms.Prim2SF_valid.
Qed.

(** A square is not negative, so its product with [0.0] is [0.0] and not
    [-0.0]; it is not a NaN either when the factor is at most one in
    magnitude, as then the square is finite. *)
Lemma square_mul_zero c : (abs c <=? 1)%float = true -> (c * c * 0 = 0)%float.
Proof.
  intros Hc. apply (abs_small c 4503599627370496 (-52) 1 eq_refl) in Hc.
  destruct (SFsigned_sign _ (SFsmall_finite _ _ Hc)) as [s S].
  pose proof (SFmul_finite _ _ _ _ s s (FloatAxioms.Prim2SF_valid c) (FloatAxioms.Prim2SF_valid c)
                Hc Hc S S ltac:(lia)) as H.
  apply FloatAxioms.Prim2SF_inj. rewrite !FloatAxioms.mul_spec.
  change (Prim2SF 0) with (S754_zero false). unfold SF64mul.
  destruct (SFmul prec emax (Prim2SF c) (Prim2SF c)) as [s'|s'| |s' m e];
    cbn in H; try contradiction; subst s'; now destruct s.
Qed.

End Float64.

(* ===================================================================== *)
(** ** Facts about the distance *)
(* ===================================================================== *)

Section DistanceFacts.

#[local] Open Scope float_scope.

Variables (sin cos : float -> option float)
          (atan2 : float -> float -> float)
          (pow : float -> float -> option float).

Lemma radians_opp x : Math.radians (- x) / 2 = - (Math.radians x / 2).
Proof.
  unfold Math.radians. by rewrite Float64.mul_opp_l, Float64.div_opp_l.
Qed.

(** The squared sine of half the difference does not depend on the order
    of the two points. *)
Lemma half_chord_swap x y (k : float -> exn + float) :
  (forall x, sin (- x) = option_map PrimFloat.opp (sin x)) ->
  (forall x, pow (- x) 2 = pow x 2) ->
  (s <- Distance.raising ValueError (sin (Math.radians (y - x) / 2)) ;;
   p <- Distance.raising OverflowError (pow s 2) ;; k p)%exn
  = (s <- Distance.raising ValueError (sin (Math.radians (x - y) / 2)) ;;
     p <- Distance.raising OverflowError (pow s 2) ;; k p)%exn.
Proof.
  intros Hodd Heven.
  destruct (Float64.sub_swap x y) as [-> | ->]; [|done].
  rewrite radians_opp, Hodd.
  destruct (sin (Math.radians (x - y) / 2)) as [s|]; [|done].
  cbn [option_map Distance.raising exn_bind]. by rewrite Heven.
Qed.

Lemma coordinate_small lat lng :
  Distance.coordinate lat lng = true ->
  Float64.SFsmall (-46) (Prim2SF lat) /\ Float64.SFsmall (-45) (Prim2SF lng).
Proof.
  unfold Distance.coordinate.
  intros [[[H1 H2]%andb_prop H3]%andb_prop H4]%andb_prop. split.
  - by apply (Float64.range_small lat 6333186975989760 (-46) 90).
  - by apply (Float64.range_small lng 6333186975989760 (-45) 180).
Qed.

(** C7: under the stated facts of the C library, the distance from a
    coordinate to itself is exactly [0.0], and swapping the two points
    never changes the outcome: a call that returns a finite distance has
    a swapped call that returns the same one, so the two differ by [0.0],
    within the 0.01 km tolerance.  But not every pair of coordinates has
    a distance: from (8, 0) to (-8, 180) the library's values make
    [a = 1.0000000000000002], the root of [1 - a] does not exist, and
    both calls raise ValueError. *)
Theorem haversine_symmetric_but_partial :
  Distance.libm_facts sin cos atan2 pow ->
  (forall lat lng, Distance.coordinate lat lng = true ->
     Distance.haversine_km sin cos atan2 pow lat lng lat lng = inr 0) /\
  (forall lat1 lng1 lat2 lng2,
     Distance.haversine_km sin cos atan2 pow lat1 lng1 lat2 lng2
     = Distance.haversine_km sin cos atan2 pow lat2 lng2 lat1 lng1) /\
  (forall lat1 lng1 lat2 lng2 d1,
     Distance.haversine_km sin cos atan2 pow lat1 lng1 lat2 lng2 = inr d1 ->
     is_finite d1 = true ->
     exists d2,
       Distance.haversine_km sin cos atan2 pow lat2 lng2 lat1 lng1 = inr d2 /\
       (d1 =? d2) = true /\
       (abs (d1 - d2) <=? Distance.tolerance) = true) /\
  (Distance.antipode_values sin cos pow ->
     Distance.coordinate 8 0 = true /\
     Distance.coordinate (-8) 180 = true /\
     Distance.haversine_km sin cos atan2 pow 8 0 (-8) 180 = inl ValueError /\
     Distance.haversine_km sin cos atan2 pow (-8) 180 8 0 = inl ValueError).
Proof.
  intros [Hsin0 Hodd Hcos Hpow0 Heven Hatan].
  assert (forall lat1 lng1 lat2 lng2,
     Distance.haversine_km sin cos atan2 pow lat1 lng1 lat2 lng2
     = Distance.haversine_km sin cos atan2 pow lat2 lng2 lat1 lng1) as Hsym.
  { intros lat1 lng1 lat2 lng2. unfold Distance.haversine_km. cbv zeta.
    rewrite (half_chord_swap lat1 lat2) by done.
    destruct (Distance.raising ValueError
                (sin (Math.radians (lat1 - lat2) / 2)))
      as [e|s1]; [done|]. cbn [exn_bind].
    destruct (Distance.raising OverflowError (pow s1 2)) as [e|p1]; [done|].
    cbn [exn_bind].
    destruct (cos (Math.radians lat1)) as [c1|],
             (cos (Math.radians lat2)) as [c2|];
      cbn [Distance.raising exn_bind]; try done.
    rewrite (half_chord_swap lng1 lng2) by done.
    by rewrite (Float64.mul_comm c1 c2). }
  split; [|split; [exact Hsym|split]].
  - intros lat lng [Hlat Hlng]%coordinate_small.
    unfold Distance.haversine_km. cbv zeta.
    rewrite !Float64.sub_diag
      by (eapply Float64.is_finite_spec, Float64.SFsmall_finite; eassumption).
    change (Math.radians 0 / 2) with 0.
    rewrite Hsin0. cbn [Distance.raising exn_bind]. rewrite Hpow0.
    cbn [Distance.raising exn_bind].
    destruct (Hcos (Math.radians lat)) as (c & -> & Hc).
    { apply (Float64.mul_finite _ _ (-46) (-58)); [done|by cbn|lia]. }
    cbn [Distance.raising exn_bind]. rewrite Float64.square_mul_zero by done.
    change (Math.sqrt (0 + 0)) with (@inr exn float 0).
    change (Math.sqrt (1 - (0 + 0))) with (@inr exn float 1).
    cbn [exn_bind]. by rewrite Hatan.
  - intros lat1 lng1 lat2 lng2 d1 Hd1 Hfin. exists d1.
    split; [by rewrite <- Hsym|].
    rewrite Float64.sub_diag by done. split; [|done].
    apply Float64.eqb_refl. unfold is_finite in Hfin.
    by destruct (is_nan d1).
  - intros [Hs8 Hc8 Hc8' Hs90 Hsq Hone].
    split; [done|]. split; [done|].
    rewrite <- (Hsym 8 0 (-8) 180).
    cut (Distance.haversine_km sin cos atan2 pow 8 0 (-8) 180
         = inl ValueError); [done|].
    unfold Distance.haversine_km. cbv zeta.
    change (Math.radians (-8 - 8) / 2) with (- Math.radians 8).
    change (Math.radians (180 - 0) / 2) with (Math.radians 180 / 2).
    rewrite Hodd, Hs8, Hc8, Hc8', Hs90.
    cbn [option_map Distance.raising exn_bind].
    by rewrite Heven, Hsq, Hone.
Qed.

End DistanceFacts.

Lemma coarse_facts :
  Distance.libm_facts Coarse.sin Coarse.cos Coarse.atan2 Coarse.pow.
Proof.
  split; try done.
  - intros x. unfold Coarse.sin. rewrite Float64.abs_opp. cbn [option_map].
    f_equal. destruct (abs x <=? 1)%float.
    + apply Float64.mul_opp_l.
    + apply Float64.div_opp_l.
  - intros x _. by eexists.
  - intros x. unfold Coarse.pow. f_equal.
    rewrite Float64.mul_opp_l, (Float64.mul_comm x (- x))%float.
    rewrite Float64.mul_opp_l. apply Float64.opp_involutive.
Qed.

Lemma coarse_antipode :
  Distance.antipode_values Coarse.sin Coarse.cos Coarse.pow.
Proof. by split. Qed.

(** At the stand-in library.  The third line runs the arithmetic of the
    embedding: Python computes the same double, 87.53705409588525, from
    the same four functions. *)
Lemma haversine_symmetric_but_partial_witness :
  Distance.haversine_km Coarse.sin Coarse.cos Coarse.atan2 Coarse.pow
    12.5 77.5 12.5 77.5 = inr 0%float /\
  Distance.haversine_km Coarse.sin Coarse.cos Coarse.atan2 Coarse.pow
    12.5 77.5 13.25 77.75
  = Distance.haversine_km Coarse.sin Coarse.cos Coarse.atan2 Coarse.pow
      13.25 77.75 12.5 77.5 /\
  Distance.haversine_km Coarse.sin Coarse.cos Coarse.atan2 Coarse.pow
    13.25 77.75 12.5 77.5 = inr 0x1.5e25f182480a4p+6%float /\
  Distance.haversine_km Coarse.sin Coarse.cos Coarse.atan2 Coarse.pow
    8 0 (-8) 180 = inl ValueError /\
  Distance.haversine_km Coarse.sin Coarse.cos Coarse.atan2 Coarse.pow
    (-8) 180 8 0 = inl ValueError.
Proof.
  destruct (haversine_symmetric_but_partial _ _ _ _ coarse_facts)
    as (Hzero & Hsym & _ & Hanti).
  destruct (Hanti coarse_antipode) as (_ & _ & Hab & Hba).
  split; [by apply Hzero|]. split; [apply Hsym|]. by split.
Defined.

(* ===================================================================== *)
(** ** The theorems at sample runs *)
(* ===================================================================== *)

Import Sample.

Lemma nearby_radius_capped_witness :
  NearbySearchCall "0.0,0.0" 50000 "doctor" "k" ∈
    calls (find_doctors host0 (searching (found "OK" [])) None None
             (Some 12.5%float) (Some 77.75%float) 200) /\
  (50000 = (200 * 1000) `min` 50000 /\ 50000 <= 50000 /\
   (200 = 200 -> 50000 = 50000))%Z.
Proof.
  assert (NearbySearchCall "0.0,0.0" 50000 "doctor" "k" ∈
            calls (find_doctors host0 (searching (found "OK" [])) None None
                     (Some 12.5%float) (Some 77.75%float) 200)) as Hin.
  { vm_compute. constructor. }
  split; [exact Hin|].
  exact (nearby_radius_capped host0 _ _ _ _ _ _ _ _ _ _ Hin).
Defined.

Lemma upstream_refusals_reported_witness :
  outcome (find_doctors host0 (searching (found "REQUEST_DENIED" []))
             (Some "dentist") None (Some 12.5%float) (Some 77.75%float) 5) =
    inr (Error "Google Places API not enabled or billing inactive.") /\
  outcome (find_doctors host0 (searching (found "OVER_QUERY_LIMIT" []))
             (Some "dentist") None (Some 12.5%float) (Some 77.75%float) 5) =
    inr (Error "API quota exceeded.").
Proof.
  split.
  - refine (proj1 (upstream_refusals_reported host0
              (searching (found "REQUEST_DENIED" []))
              (Some "dentist") None (Some 12.5%float) (Some 77.75%float) 5
              "0.0,0.0" 5000 "dentist" "k" (found "REQUEST_DENIED" []) _ _) _).
    + vm_compute. constructor.
    + reflexivity.
    + reflexivity.
  - refine (proj2 (upstream_refusals_reported host0
              (searching (found "OVER_QUERY_LIMIT" []))
              (Some "dentist") None (Some 12.5%float) (Some 77.75%float) 5
              "0.0,0.0" 5000 "dentist" "k" (found "OVER_QUERY_LIMIT" []) _ _) _).
    + vm_compute. constructor.
    + reflexivity.
    + reflexivity.
Defined.

Lemma no_results_reported_witness :
  outcome (find_doctors host0 (searching (found "ZERO_RESULTS" []))
             (Some "dentist") (Some "Bangalore")
             (Some 12.5%float) (Some 77.75%float) 200) =
  inr (Error "No doctors found within 200 km of Bangalore.").
Proof.
  refine (no_results_reported host0 (searching (found "ZERO_RESULTS" []))
            (Some "dentist") (Some "Bangalore")
            (Some 12.5%float) (Some 77.75%float) 200
            (PFloat 12.5%float) (PFloat 77.75%float) "Bangalore"
            (found "ZERO_RESULTS" []) (PStr "ZERO_RESULTS") [] _ _ _ _ _ _ _);
    reflexivity.
Defined.

Lemma listing_keeps_first_twelve_witness :
  length twenty = 20 /\
  exists lines,
    outcome (find_doctors host0 (searching (found "OK" twenty)) None None
               (Some 12.5%float) (Some 77.75%float) 20) =
      inr (Listing
             (nl +:+ "    Here are the top doctors near your area:" +:+ nl +:+ nl +:+
              "    " +:+ String.concat nl lines +:+ nl +:+ nl +:+
              "    Do you want directions, phone number, or another specialty?" +:+
              nl +:+ "    ")) /\
    length lines = 12.
Proof.
  destruct (listing_keeps_first_twelve host0 (searching (found "OK" twenty))
              None None (Some 12.5%float) (Some 77.75%float) 20
              (PFloat 12.5%float) (PFloat 77.75%float) "your area"
              (found "OK" twenty) (PStr "OK") twenty first_twelve)
    as (lines & Hout & _ & _ & H20).
  - reflexivity.
  - reflexivity.
  - reflexivity.
  - reflexivity.
  - reflexivity.
  - reflexivity.
  - discriminate.
  - vm_compute. repeat constructor.
  - split; [reflexivity|]. exists lines. split; [exact Hout|].
    apply H20. reflexivity.
Defined.

Lemma missing_rating_rendered_witness :
  exists d,
    first_twelve !! 0 = Some d /\
    rating d = PStr "No rating" /\
    render_lines host0 first_twelve !! 0 =
      Some "1. 1 • No rating 0 • 0.0 • None".
Proof.
  destruct (missing_rating_rendered host0 (searching (found "OK" twenty))
              None None (Some 12.5%float) (Some 77.75%float) 20
              (PFloat 12.5%float) (PFloat 77.75%float) "your area"
              (found "OK" twenty) (PStr "OK") twenty first_twelve 0
              (list_to_map
                 [("name", PStr "1");
                  ("geometry",
                   obj [("location",
                         obj [("lat", PFloat 12.5%float);
                              ("lng", PFloat 77.75%float)])])]))
    as (d & Hd & Hrating & Hline & _).
  - reflexivity.
  - reflexivity.
  - reflexivity.
  - reflexivity.
  - reflexivity.
  - reflexivity.
  - vm_compute. repeat constructor.
  - lia.
  - reflexivity.
  - reflexivity.
  - exists d. split; [exact Hd|]. split; [exact Hrating|].
    rewrite Hline. injection Hd as <-. reflexivity.
Defined.

Lemma nonzero_coordinates_used_directly_witness :
  outcome (resolve_location host0 offline (Some "Pune")
             (Some 18.5%float) (Some 73.75%float)) =
    inr (Some (PFloat 18.5%float, PFloat 73.75%float, "Pune")) /\
  calls (find_doctors host0 offline None (Some "Pune")
           (Some 18.5%float) (Some 73.75%float) 20) =
    [NearbySearchCall "0.0,0.0" 20000 "doctor" "k"].
Proof.
  refine (nonzero_coordinates_used_directly host0 offline None (Some "Pune")
            18.5%float 73.75%float 20 _ _); reflexivity.
Defined.

Lemma geocoded_nonzero_is_origin_witness :
  resolve_location host0 bangalore (Some "Bangalore") None None =
  ([GeocodeCall "Bangalore" "k"],
   inr (Some (PFloat 12.5%float, PFloat 77.75%float, "Bangalore"))).
Proof.
  refine (geocoded_nonzero_is_origin host0 bangalore "Bangalore" None None
            (list_to_map
               [("status", PStr "OK");
                ("results",
                 PList [obj [("geometry",
                              obj [("location",
                                    obj [("lat", PFloat 12.5%float);
                                         ("lng", PFloat 77.75%float)])])]])])
            (obj [("geometry",
                   obj [("location",
                         obj [("lat", PFloat 12.5%float);
                              ("lng", PFloat 77.75%float)])])])
            []
            (obj [("location",
                   obj [("lat", PFloat 12.5%float); ("lng", PFloat 77.75%float)])])
            (obj [("lat", PFloat 12.5%float); ("lng", PFloat 77.75%float)])
            (PFloat 12.5%float) (PFloat 77.75%float)
            _ _ _ _ _ _ _ _ _ _ _);
    reflexivity.
Defined.

Lemma geocoding_refusal_falls_back_witness :
  calls (resolve_location host0
           (World (fun _ => HttpJson (obj [("status", PStr "ZERO_RESULTS")]))
                  HttpFail (fun _ _ _ => HttpFail))
           (Some "Atlantis") None None) =
  [GeocodeCall "Atlantis" "k"; IpLookupCall].
Proof.
  refine (geocoding_refusal_falls_back host0
            (World (fun _ => HttpJson (obj [("status", PStr "ZERO_RESULTS")]))
                   HttpFail (fun _ _ _ => HttpFail))
            "Atlantis" None None
            (obj [("status", PStr "ZERO_RESULTS")]) (PStr "ZERO_RESULTS")
            _ _ _ _ _);
    reflexivity.
Defined.

(** The scenario of a dentist search in Bangalore within 5 km: the city is
    geocoded, one search for "dentist" with radius 5000 follows, and the
    three places come back as three numbered lines under a header that
    names the specialty and the city. *)
Example dentists_in_bangalore :
  find_doctors host0 bangalore (Some "dentist") (Some "Bangalore") None None 5 =
  ([GeocodeCall "Bangalore" "k"; NearbySearchCall "0.0,0.0" 5000 "dentist" "k"],
   inr (Listing
          (nl +:+ "    Here are the top dentist near Bangalore:" +:+ nl +:+ nl +:+
           "    1. A • No rating 0 • 0.0 • None" +:+ nl +:+
           "2. B • No rating 0 • 0.0 • None" +:+ nl +:+
           "3. C • No rating 0 • 0.0 • None" +:+ nl +:+ nl +:+
           "    Do you want directions, phone number, or another specialty?" +:+
           nl +:+ "    "))).
Proof. vm_compute. reflexivity. Qed.

Example strip_inner : strip "  heart  doctor  " = "heart  doctor".
Proof. reflexivity. Qed.

Example strip_unicode :
  strip (of_bytes [194; 160; 9; 100; 226; 128; 137; 10]) = "d".
Proof. reflexivity. Qed.

Example take_characters : utf8_take 2 "a•bc" = "a•".
Proof. reflexivity. Qed.

(* ===================================================================== *)
(** ** Further behaviour of the tool *)
(* ===================================================================== *)

Lemma utf8_chars_nonempty s : s <> "" -> utf8_chars s <> [].
Proof. destruct s as [|a s]; [done|]. intros _. unfold utf8_chars. by cbn. Qed.

Section MoreFacts.

Variable h : host.

(** The log of a run: the location step's, then the one search request
    when the origin was resolved. *)
Lemma find_doctors_calls w specialty city lat lng radius_km :
  calls (find_doctors h w specialty city lat lng radius_km) =
  calls (resolve_location h w city lat lng) ++
  match outcome (resolve_location h w city lat lng) with
  | inr (Some (la, ln, _)) =>
      [NearbySearchCall (str h la +:+ "," +:+ str h ln)
         ((radius_km * 1000) `min` 50000)%Z (keyword_of specialty) (API_KEY h)]
  | _ => []
  end.
Proof.
  rewrite find_doctors_eq.
  destruct (resolve_location h w city lat lng) as [log [e|[[[la ln] label]|]]];
    unfold calls, outcome; cbn [fst snd]; by rewrite ?app_nil_r.
Qed.

Lemma resolve_location_calls_eq w city lat lng :
  exists ip : bool,
    calls (resolve_location h w city lat lng) =
    (if truthy (of_opt_str city) &&
        negb (truthy (of_opt_float lat) && truthy (of_opt_float lng))
     then [GeocodeCall (default "" city) (API_KEY h)] else []) ++
    (if ip then [IpLookupCall] else []).
Proof.
  unfold resolve_location. rewrite calls_bind.
  destruct (truthy (of_opt_str city) && _).
  - rewrite geocode_city_calls.
    destruct (outcome _) as [e|coords]; [by exists false|].
    rewrite settle_calls. destruct (_ && _); [by exists false | by exists true].
  - cbn [calls io_ret fst outcome snd]. rewrite settle_calls.
    destruct (_ && _); [by exists false | by exists true].
Qed.

(** Whatever the arguments and the services do, a run makes at most three
    requests, each service at most once and in the order geocoding, IP
    lookup, nearby search; the geocoder is asked exactly when a non-empty
    city comes with a missing or zero coordinate, with the city as given
    and the configured key. *)
Theorem request_discipline w specialty city lat lng radius_km :
  exists (ip search : bool) location,
    calls (find_doctors h w specialty city lat lng radius_km) =
    (if truthy (of_opt_str city) &&
        negb (truthy (of_opt_float lat) && truthy (of_opt_float lng))
     then [GeocodeCall (default "" city) (API_KEY h)] else []) ++
    (if ip then [IpLookupCall] else []) ++
    (if search
     then [NearbySearchCall location ((radius_km * 1000) `min` 50000)%Z
             (keyword_of specialty) (API_KEY h)]
     else []) /\
    length (calls (find_doctors h w specialty city lat lng radius_km)) <= 3.
Proof.
  rewrite find_doctors_calls.
  destruct (resolve_location_calls_eq w city lat lng) as [ip ->].
  destruct (outcome _) as [e|[[[la ln] label]|]].
  - exists ip, false, "". rewrite !app_nil_r.
    split; [done|]. destruct (_ && _), ip; cbn; lia.
  - exists ip, true, (str h la +:+ "," +:+ str h ln). rewrite <- app_assoc.
    split; [done|]. destruct (_ && _), ip; cbn; lia.
  - exists ip, false, "". rewrite !app_nil_r.
    split; [done|]. destruct (_ && _), ip; cbn; lia.
Qed.

(** An error [present] returns is one of the three of the search stage. *)
Lemma present_error_inv specialty radius_km la ln label resp msg :
  present h specialty radius_km la ln label resp = inr (Error msg) ->
  msg = "Google Places API not enabled or billing inactive." \/
  msg = "API quota exceeded." \/
  msg = "No doctors found within " +:+ pretty radius_km +:+ " km of " +:+
        label +:+ ".".
Proof.
  unfold present, exn_bind. intros Hp.
  repeat case_match; simplify_eq; auto.
Qed.

(** The error values the tool can return are four: the location error,
    which comes without any search request having been made, and the three
    of the search stage, which come after the search request and name the
    radius as requested and the resolved label. *)
Theorem error_values_enumerated w specialty city lat lng radius_km msg :
  outcome (find_doctors h w specialty city lat lng radius_km) = inr (Error msg) ->
  (msg = "Unable to detect your location. Please provide a city name." /\
   Forall is_lookup (calls (find_doctors h w specialty city lat lng radius_km))) \/
  (exists la ln label,
     outcome (resolve_location h w city lat lng) = inr (Some (la, ln, label)) /\
     NearbySearchCall (str h la +:+ "," +:+ str h ln)
       ((radius_km * 1000) `min` 50000)%Z (keyword_of specialty) (API_KEY h) ∈
       calls (find_doctors h w specialty city lat lng radius_km) /\
     (msg = "Google Places API not enabled or billing inactive." \/
      msg = "API quota exceeded." \/
      msg = "No doctors found within " +:+ pretty radius_km +:+ " km of " +:+
            label +:+ ".")).
Proof.
  intros Hout.
  pose proof (resolve_location_calls h w city lat lng) as Hlog.
  destruct (outcome (resolve_location h w city lat lng))
    as [e|[[[la ln] label]|]] eqn:Hres.
  - rewrite find_doctors_eq in Hout.
    destruct (resolve_location h w city lat lng) as [log o].
    unfold outcome in *. cbn [snd] in *. by subst o.
  - right. exists la, ln, label. split; [done|].
    destruct (find_doctors_resolved h w specialty city lat lng radius_km _ _ _ Hres)
      as [Hin Heq].
    split; [done|]. rewrite Heq in Hout.
    destruct (places_api w _ _ _) as [|resp]; [done|].
    by eapply present_error_inv.
  - left. rewrite find_doctors_calls, Hres, app_nil_r. split; [|done].
    rewrite find_doctors_eq in Hout.
    destruct (resolve_location h w city lat lng) as [log o].
    unfold outcome in *. cbn [snd] in *. subst o. cbn [snd] in Hout. congruence.
Qed.

Lemma collect_length {A} (f : pyval -> exn + A) l ds :
  collect f l = inr ds -> length ds = length l.
Proof.
  intros Hc. apply collect_Forall2 in Hc. symmetry. by eapply Forall2_length.
Qed.

(** The loop over the characters of a string stops at the first one: a
    [str] has no member "geometry". *)
Lemma collect_chars_raises la ln c cs :
  collect (doctor_of h la ln) (PStr c :: cs) = inl TypeError.
Proof. done. Qed.

(** A listing [present] returns has between one and twelve lines. *)
Lemma present_listing_inv specialty radius_km la ln label resp text :
  present h specialty radius_km la ln label resp = inr (Listing text) ->
  exists found results,
    get resp "results" (PList []) = inr (PList found) /\
    Forall2 (fun p d => doctor_of h la ln p = inr d) (take 12 found) results /\
    found <> [] /\
    text = render_page specialty label (render_lines h results).
Proof.
  unfold present. intros Hp.
  destruct (get resp "status" PNone) as [e|status]; [done|]. cbn [exn_bind] in Hp.
  destruct (eq_str status "REQUEST_DENIED"); [done|]. cbn [exn_bind] in Hp.
  destruct (eq_str status "OVER_QUERY_LIMIT"); [done|].
  destruct (get resp "results" (PList [])) as [e|found]; [done|].
  cbn [exn_bind] in Hp.
  destruct found as [| | | |s|l|]; try done; cbn [slice12 exn_bind] in Hp.
  - destruct (truthy (PStr (utf8_take 12 s))) eqn:Ht; [|done].
    cbn [negb iter exn_bind] in Hp.
    assert (utf8_chars (utf8_take 12 s) <> []) as Hne.
    { apply utf8_chars_nonempty. cbn [truthy] in Ht.
      intros Hs. by rewrite Hs in Ht. }
    destruct (utf8_chars (utf8_take 12 s)) as [|c cs]; [done|].
    cbn [fmap list_fmap] in Hp. by rewrite collect_chars_raises in Hp.
  - destruct (truthy (PList (take 12 l))) eqn:Ht; [|done].
    cbn [negb iter exn_bind] in Hp.
    destruct (collect (doctor_of h la ln) (take 12 l)) as [e|results] eqn:Hc;
      [done|].
    injection Hp as <-. exists l, results.
    split; [done|]. split; [by apply collect_Forall2|]. split; [|done].
    intros ->. done.
Qed.

(** A listing is never empty and never longer than twelve lines: when the
    tool returns a text, the origin was resolved and the search answered
    with a list of places, of which the first twelve were kept; the text
    is the header for the specialty as typed (or "doctors") and the
    resolved label, then between one and twelve lines, one per kept place
    and in the order of the answer, each starting with its number and the
    place's name, and then the follow-up prompt. *)
Theorem listing_shape w specialty city lat lng radius_km text :
  outcome (find_doctors h w specialty city lat lng radius_km) =
    inr (Listing text) ->
  let newline := String (ascii_of_nat 10) "" in
  exists la ln label resp found lines,
    outcome (resolve_location h w city lat lng) = inr (Some (la, ln, label)) /\
    places_api w (str h la +:+ "," +:+ str h ln)
      ((radius_km * 1000) `min` 50000)%Z (keyword_of specialty) = HttpJson resp /\
    get resp "results" (PList []) = inr (PList found) /\
    text =
      newline +:+ "    Here are the top " +:+
      match specialty with
      | Some s => if String.eqb s "" then "doctors" else s
      | None => "doctors"
      end +:+ " near " +:+ label +:+ ":" +:+ newline +:+ newline +:+
      "    " +:+ String.concat newline lines +:+ newline +:+ newline +:+
      "    Do you want directions, phone number, or another specialty?" +:+
      newline +:+ "    " /\
    length lines = 12 `min` length found /\
    1 <= length lines <= 12 /\
    (forall i, i < length lines ->
       exists (p : gmap string pyval) d,
         found !! i = Some (PDict p) /\
         doctor_of h la ln (PDict p) = inr d /\
         lines !! i =
           Some (pretty (S i) +:+ ". " +:+
                 str h (default (PStr "Unknown") (p !! "name")) +:+ " • " +:+
                 str h (rating d) +:+ " " +:+ str h (reviews d) +:+ " • " +:+
                 float_str h (distance_km d) +:+ " • " +:+ str h (open_now d))).
Proof.
  intros Hout newline. rewrite find_doctors_eq in Hout.
  destruct (resolve_location h w city lat lng)
    as [log [e|[[[la ln] label]|]]] eqn:Hres;
    unfold outcome in *; cbn [snd] in *; try done.
  destruct (places_api w _ _ _) as [|resp] eqn:Hresp; [done|].
  apply present_listing_inv in Hout
    as (found & results & Hfound & Hconv & Hne & ->).
  assert (length results = 12 `min` length found) as Hlen.
  { rewrite <- (Forall2_length _ _ _ Hconv). apply length_take. }
  exists la, ln, label, resp, found, (render_lines h results).
  split; [done|]. split; [done|]. split; [done|]. split.
  { unfold render_page. by rewrite str_or_cases. }
  rewrite render_lines_length. split; [done|]. split.
  { rewrite Hlen. destruct found; [done|]. cbn [length]. lia. }
  intros i Hi.
  destruct (lookup_lt_is_Some_2 results i) as [d Hd]; [lia|].
  destruct (Forall2_lookup_r _ _ _ _ _ Hconv Hd) as (v & Hv & Hvd).
  apply lookup_take_Some in Hv as [Hv _].
  destruct (doctor_of_name h _ _ _ _ Hvd) as (p & -> & Hname).
  exists p, d. split; [done|]. split; [done|].
  rewrite render_lines_lookup, Hd. cbn [fmap option_fmap option_map].
  unfold render_line. by rewrite Hname.
Qed.

Lemma resolve_location_ext w1 w2 city lat lng :
  geocode_api w1 = geocode_api w2 -> ip_api w1 = ip_api w2 ->
  resolve_location h w1 city lat lng = resolve_location h w2 city lat lng.
Proof.
  destruct w1, w2. cbn [geocode_api ip_api]. by intros -> ->.
Qed.

Lemma present_take12 specialty radius_km la ln label resp1 resp2 l1 l2 :
  get resp1 "status" PNone = get resp2 "status" PNone ->
  get resp1 "results" (PList []) = inr (PList l1) ->
  get resp2 "results" (PList []) = inr (PList l2) ->
  take 12 l1 = take 12 l2 ->
  present h specialty radius_km la ln label resp1 =
  present h specialty radius_km la ln label resp2.
Proof.
  intros Hst H1 H2 Htake. unfold present.
  rewrite Hst, H1, H2.
  destruct (get resp2 "status" PNone) as [e|status]; [done|].
  cbn [exn_bind slice12]. by rewrite Htake.
Qed.

(** Places after the twelfth are never looked at: two runs that differ
    only in what the search answer lists from the thirteenth place on log
    the same requests and end the same way (so a malformed thirteenth
    place does no harm). *)
Theorem places_beyond_twelfth_ignored w1 w2 specialty city lat lng radius_km
    resp1 resp2 l1 l2 :
  geocode_api w1 = geocode_api w2 ->
  ip_api w1 = ip_api w2 ->
  (forall location radius keyword,
     places_api w1 location radius keyword = HttpJson resp1 /\
     places_api w2 location radius keyword = HttpJson resp2) ->
  get resp1 "status" PNone = get resp2 "status" PNone ->
  get resp1 "results" (PList []) = inr (PList l1) ->
  get resp2 "results" (PList []) = inr (PList l2) ->
  take 12 l1 = take 12 l2 ->
  find_doctors h w1 specialty city lat lng radius_km =
  find_doctors h w2 specialty city lat lng radius_km.
Proof.
  intros Hgeo Hip Hplaces Hst H1 H2 Htake.
  rewrite !find_doctors_eq.
  rewrite (resolve_location_ext w1 w2 city lat lng Hgeo Hip).
  destruct (resolve_location h w2 city lat lng) as [log [e|[[[la ln] label]|]]];
    try done.
  cbv zeta.
  destruct (Hplaces (str h la +:+ "," +:+ str h ln)
              ((radius_km * 1000) `min` 50000)%Z (keyword_of specialty))
    as [-> ->].
  by rewrite (present_take12 _ _ _ _ _ _ _ _ _ Hst H1 H2 Htake).
Qed.

Lemma collect_raises {A} (f : pyval -> exn + A) l i p e :
  l !! i = Some p -> f p = inl e -> exists e', collect f l = inl e'.
Proof.
  revert i. induction l as [|q qs IH]; intros i Hi Hp; [done|].
  cbn [collect]. unfold exn_bind at 1.
  destruct (f q) as [e'|d] eqn:Hq; [eauto|].
  destruct i as [|i]; cbn in Hi.
  - congruence.
  - destruct (IH i Hi Hp) as [e' ->]. cbn. eauto.
Qed.

(** There is no partial listing: when one of the first twelve places of
    an accepted answer has no "geometry" member, the call raises, however
    many well-formed places surround it. *)
Theorem malformed_place_aborts w specialty city lat lng radius_km
    la ln label resp status found i (p : gmap string pyval) :
  outcome (resolve_location h w city lat lng) = inr (Some (la, ln, label)) ->
  places_api w (str h la +:+ "," +:+ str h ln)
    ((radius_km * 1000) `min` 50000)%Z (keyword_of specialty) = HttpJson resp ->
  get resp "status" PNone = inr status ->
  eq_str status "REQUEST_DENIED" = false ->
  eq_str status "OVER_QUERY_LIMIT" = false ->
  get resp "results" (PList []) = inr (PList found) ->
  i < 12 ->
  found !! i = Some (PDict p) ->
  p !! "geometry" = None ->
  exists e, outcome (find_doctors h w specialty city lat lng radius_km) = inl e.
Proof.
  intros Hres Hresp Hst Hden Hquota Hfound Hi Hp Hgeo.
  destruct (find_doctors_resolved h w specialty city lat lng radius_km _ _ _ Hres)
    as [_ ->].
  rewrite Hresp. unfold present.
  rewrite Hst. cbn [exn_bind]. rewrite Hden. cbn [exn_bind].
  rewrite Hquota, Hfound. cbn [exn_bind slice12].
  assert (take 12 found !! i = Some (PDict p)) as Hkept
    by by apply lookup_take_Some.
  assert (doctor_of h la ln (PDict p) = inl KeyError) as Hbad.
  { unfold doctor_of. cbn [getitem]. by rewrite Hgeo. }
  destruct (collect_raises _ _ _ _ _ Hkept Hbad) as [e He].
  destruct (take 12 found) as [|q qs]; [done|].
  cbn [truthy negb iter exn_bind]. rewrite He. eauto.
Qed.

Lemma get_location_from_ip_success w d la lo :
  ip_api w = HttpJson (PDict d) ->
  d !! "status" = Some (PStr "success") ->
  d !! "lat" = Some la -> d !! "lon" = Some lo ->
  outcome (get_location_from_ip w) =
  inr (Some (IpLocation (default (PStr "Unknown") (d !! "city"))
                        (default (PStr "") (d !! "countryCode")) la lo)).
Proof.
  intros Hip Hst Hlat Hlon. unfold get_location_from_ip.
  rewrite Hip, outcome_catch, outcome_bind, outcome_request. cbv beta iota.
  rewrite outcome_bind, outcome_lift. cbn [getitem]. rewrite Hst.
  cbv beta iota. change (eq_str (PStr "success") "success") with true.
  cbv beta iota.
  rewrite outcome_bind, outcome_lift. cbn [get]. cbv beta iota.
  rewrite outcome_bind, outcome_lift. cbv beta iota.
  rewrite outcome_bind, outcome_lift, Hlat. cbv beta iota.
  rewrite outcome_bind, outcome_lift, Hlon. reflexivity.
Qed.

Lemma get_location_from_ip_some_inv w loc :
  outcome (get_location_from_ip w) = inr (Some loc) ->
  exists d la lo,
    ip_api w = HttpJson (PDict d) /\
    d !! "status" = Some (PStr "success") /\
    d !! "lat" = Some la /\ d !! "lon" = Some lo.
Proof.
  unfold get_location_from_ip.
  rewrite outcome_catch, outcome_bind.
  destruct (ip_api w) as [|body]; [done|].
  rewrite outcome_request. cbv beta iota.
  rewrite outcome_bind, outcome_lift.
  destruct body as [| | | | | |d]; try done.
  cbn [getitem]. destruct (d !! "status") as [status|] eqn:Hst; [|done].
  cbv beta iota.
  destruct status as [| | | |s| |]; try done.
  cbn [eq_str]. destruct (String.eqb s "success") eqn:Hs; [|done].
  apply String.eqb_eq in Hs as ->.
  rewrite outcome_bind, outcome_lift. cbn [get]. cbv beta iota.
  rewrite outcome_bind, outcome_lift. cbv beta iota.
  rewrite outcome_bind, outcome_lift.
  destruct (d !! "lat") as [la|] eqn:Hlat; [|done]. cbv beta iota.
  rewrite outcome_bind, outcome_lift.
  destruct (d !! "lon") as [lo|] eqn:Hlon; [|done]. cbv beta iota.
  intros _. by exists d, la, lo.
Qed.

(** What [get_location_from_ip] returns, in full: a location exactly when
    the service answers a JSON object whose "status" is "success" and
    which has "lat" and "lon"; the city then defaults to "Unknown" and the
    country to the empty string.  In every other case (no answer, another
    status, a member missing, a body that is no object) it returns
    [None]. *)
Theorem ip_lookup_result w :
  (forall d la lo,
     ip_api w = HttpJson (PDict d) ->
     d !! "status" = Some (PStr "success") ->
     d !! "lat" = Some la -> d !! "lon" = Some lo ->
     outcome (get_location_from_ip w) =
     inr (Some (IpLocation (default (PStr "Unknown") (d !! "city"))
                           (default (PStr "") (d !! "countryCode")) la lo))) /\
  (forall loc,
     outcome (get_location_from_ip w) = inr (Some loc) ->
     exists d la lo,
       ip_api w = HttpJson (PDict d) /\
       d !! "status" = Some (PStr "success") /\
       d !! "lat" = Some la /\ d !! "lon" = Some lo) /\
  (outcome (get_location_from_ip w) = inr None \/
   exists loc, outcome (get_location_from_ip w) = inr (Some loc)).
Proof.
  split; [|split].
  - apply get_location_from_ip_success.
  - apply get_location_from_ip_some_inv.
  - destruct (get_location_from_ip_returns w) as [[loc|] Hr]; eauto.
Qed.

(** When the IP lookup decides the origin, the label is the IP service's
    "{city}, {countryCode}" and the city the caller named plays no part:
    so it is with no city at all, and so it is with a city the geocoder
    answers with a status other than "OK". *)
Theorem ip_origin_and_label w d la lo :
  ip_api w = HttpJson (PDict d) ->
  d !! "status" = Some (PStr "success") ->
  d !! "lat" = Some la -> d !! "lon" = Some lo ->
  let label := str h (default (PStr "Unknown") (d !! "city")) +:+ ", " +:+
               str h (default (PStr "") (d !! "countryCode")) in
  resolve_location h w None None None =
    ([IpLookupCall], inr (Some (la, lo, label))) /\
  (forall city resp status,
     truthy (PStr city) = true ->
     geocode_api w city = HttpJson resp ->
     get resp "status" PNone = inr status ->
     eq_str status "OK" = false ->
     resolve_location h w (Some city) None None =
       ([GeocodeCall city (API_KEY h); IpLookupCall],
        inr (Some (la, lo, label)))).
Proof.
  intros Hip Hst Hlat Hlon label.
  pose proof (get_location_from_ip_success w d la lo Hip Hst Hlat Hlon) as Hout.
  pose proof (get_location_from_ip_calls w) as Hcalls.
  assert (settle h w None PNone PNone =
          ([IpLookupCall], inr (Some (la, lo, label)))) as Hnone.
  { unfold settle. cbn [truthy andb negb].
    destruct (get_location_from_ip w) as [log o].
    unfold calls, outcome in *. cbn [fst snd] in *. by subst log o. }
  split.
  - by rewrite resolve_location_no_city.
  - intros city resp status Hcity Hresp Hstatus Hno.
    rewrite resolve_location_geocodes by done.
    unfold geocode_city. rewrite Hresp.
    unfold request, io_lift. cbn [io_bind]. rewrite Hstatus. cbn [io_bind].
    rewrite Hno. cbn [io_bind io_ret fst snd app].
    unfold settle in *. cbn [truthy andb negb] in *.
    destruct (get_location_from_ip w) as [log [e|[ip|]]]; cbn in *;
      by simplify_eq.
Qed.

(** A missing or zero coordinate discards the other one too: the run is
    the run without coordinates. *)
Theorem partial_coordinates_are_discarded w specialty city lat lng radius_km :
  truthy (of_opt_float lat) && truthy (of_opt_float lng) = false ->
  find_doctors h w specialty city lat lng radius_km =
  find_doctors h w specialty city None None radius_km.
Proof.
  intros Hmissing. unfold find_doctors. f_equal.
  unfold resolve_location. rewrite Hmissing. cbn [of_opt_float truthy andb negb].
  destruct (truthy (of_opt_str city)); cbn [andb]; [done|].
  rewrite !io_bind_ret. unfold settle. cbn [fst snd]. by rewrite Hmissing.
Qed.

(** An empty string is an absent argument: the empty specialty and the
    empty city give the runs of [None]. *)
Theorem empty_strings_are_absent w specialty city lat lng radius_km :
  find_doctors h w (Some "") city lat lng radius_km =
    find_doctors h w None city lat lng radius_km /\
  find_doctors h w specialty (Some "") lat lng radius_km =
    find_doctors h w specialty None lat lng radius_km.
Proof. split; reflexivity. Qed.

(** The one search request of a run: its location is the resolved origin
    rendered as "{lat},{lng}", its keyword is "doctor" for no or an empty
    specialty and the stripped specialty otherwise, and its key is the
    configured one. *)
Theorem search_request_parameters w specialty city lat lng radius_km
    location radius keyword key :
  NearbySearchCall location radius keyword key ∈
    calls (find_doctors h w specialty city lat lng radius_km) ->
  (exists la ln label,
     outcome (resolve_location h w city lat lng) = inr (Some (la, ln, label)) /\
     location = str h la +:+ "," +:+ str h ln) /\
  keyword =
    match specialty with
    | Some s => if String.eqb s "" then "doctor" else strip s
    | None => "doctor"
    end /\
  key = API_KEY h.
Proof.
  intros Hin.
  apply search_call_inv in Hin as (la & ln & label & Hres & -> & _ & -> & -> & _).
  split; [by exists la, ln, label|]. split; [|done].
  unfold keyword_of, truthy. destruct specialty as [s|]; [|done].
  by destruct (String.eqb s "").
Qed.

(** How a place of the answer becomes a result, once its position is
    there and the distance is computed: every other member is optional,
    with the defaults "Unknown", "No address", "No rating" and 0, the
    distance is the rounded haversine distance from the origin, and
    [open_now] is [None] without "opening_hours" or without its
    "open_now"; but an "opening_hours" that is no object (a JSON null,
    say) makes the conversion raise. *)
Theorem place_conversion la ln (p : gmap string pyval) geometry loc plat plng km :
  p !! "geometry" = Some geometry ->
  getitem geometry "location" = inr loc ->
  getitem loc "lat" = inr plat ->
  getitem loc "lng" = inr plng ->
  haversine_km h la ln plat plng = inr km ->
  doctor_of h la ln (PDict p) =
  match p !! "opening_hours" with
  | None | Some (PDict _) =>
      inr (Doctor (default (PStr "Unknown") (p !! "name"))
                  (default (PStr "No address") (p !! "vicinity"))
                  (default (PStr "No rating") (p !! "rating"))
                  (default (PInt 0) (p !! "user_ratings_total"))
                  (round1 h km)
                  match p !! "opening_hours" with
                  | Some (PDict hours) => default PNone (hours !! "open_now")
                  | _ => PNone
                  end)
  | Some _ => inl AttributeError
  end.
Proof.
  intros Hgeo Hloc Hlat Hlng Hkm. unfold doctor_of.
  cbn [getitem]. rewrite Hgeo. cbn [exn_bind].
  rewrite Hloc. cbn [exn_bind]. rewrite Hlat. cbn [exn_bind].
  rewrite Hlng. cbn [exn_bind]. rewrite Hkm. cbn [exn_bind get].
  by destruct (p !! "opening_hours") as [[]|].
Qed.

(** The address is fetched and never shown: whatever "vicinity" a place
    has, its line (or the exception it raises) is the same. *)
Theorem address_is_not_shown la ln (p : gmap string pyval) v i :
  sum_map id (render_line h i) (doctor_of h la ln (PDict (<["vicinity" := v]> p))) =
  sum_map id (render_line h i) (doctor_of h la ln (PDict p)).
Proof.
  unfold doctor_of. cbn [getitem get].
  rewrite (lookup_insert_ne p "vicinity" "geometry") by done.
  rewrite (lookup_insert_ne p "vicinity" "name") by done.
  rewrite (lookup_insert_ne p "vicinity" "rating") by done.
  rewrite (lookup_insert_ne p "vicinity" "user_ratings_total") by done.
  rewrite (lookup_insert_ne p "vicinity" "opening_hours") by done.
  unfold exn_bind.
  repeat case_match; simplify_eq; done.
Qed.

(** The behaviour of [geocode_city] by answer: it makes one request,
    with the city as given; a missing answer raises, and so does a body
    that is no object; a status other than "OK" (or none) gives
    [(None, None)]; an "OK" answer gives the first result's position, and
    raises when "results" is missing or empty. *)
Theorem geocode_city_behaviour w city :
  calls (geocode_city h w city) = [GeocodeCall city (API_KEY h)] /\
  (geocode_api w city = HttpFail ->
   outcome (geocode_city h w city) = inl RequestError) /\
  (forall body,
     geocode_api w city = HttpJson body ->
     (forall r, body <> PDict r) ->
     outcome (geocode_city h w city) = inl AttributeError) /\
  (forall r,
     geocode_api w city = HttpJson (PDict r) ->
     eq_str (default PNone (r !! "status")) "OK" = false ->
     outcome (geocode_city h w city) = inr (PNone, PNone)) /\
  (forall r,
     geocode_api w city = HttpJson (PDict r) ->
     r !! "status" = Some (PStr "OK") ->
     (r !! "results" = None ->
      outcome (geocode_city h w city) = inl KeyError) /\
     (r !! "results" = Some (PList []) ->
      outcome (geocode_city h w city) = inl IndexError) /\
     (forall first rest geometry loc glat glng,
        r !! "results" = Some (PList (first :: rest)) ->
        getitem first "geometry" = inr geometry ->
        getitem geometry "location" = inr loc ->
        getitem loc "lat" = inr glat ->
        getitem loc "lng" = inr glng ->
        outcome (geocode_city h w city) = inr (glat, glng))).
Proof.
  split; [apply geocode_city_calls|].
  split; [by intros Hf; unfold geocode_city; rewrite Hf|].
  split.
  { intros body Hb Hnot. unfold geocode_city. rewrite Hb.
    rewrite outcome_bind, outcome_request. cbv beta iota.
    rewrite outcome_bind, outcome_lift.
    destruct body; try done. by destruct (Hnot d). }
  split.
  { intros r Hb Hst. unfold geocode_city. rewrite Hb.
    rewrite outcome_bind, outcome_request. cbv beta iota.
    rewrite outcome_bind, outcome_lift. cbn [get]. cbv beta iota.
    by rewrite Hst. }
  intros r Hb Hst.
  split; [|split].
  - intros Hres. unfold geocode_city. rewrite Hb.
    rewrite outcome_bind, outcome_request. cbv beta iota.
    rewrite outcome_bind, outcome_lift. cbn [get]. rewrite Hst.
    cbv beta iota. change (eq_str _ "OK") with true. cbv beta iota.
    rewrite outcome_bind, outcome_lift. cbn [getitem]. by rewrite Hres.
  - intros Hres. unfold geocode_city. rewrite Hb.
    rewrite outcome_bind, outcome_request. cbv beta iota.
    rewrite outcome_bind, outcome_lift. cbn [get]. rewrite Hst.
    cbv beta iota. change (eq_str _ "OK") with true. cbv beta iota.
    rewrite outcome_bind, outcome_lift. cbn [getitem]. rewrite Hres.
    cbv beta iota. by rewrite outcome_bind, outcome_lift.
  - intros first rest geometry loc glat glng Hres Hgeo Hloc Hlat Hlng.
    by eapply geocode_city_ok.
Qed.

End MoreFacts.

(** *** Sample runs *)

(** The IP service places the caller in Lima; the geocoder finds nothing
    and the search is down. *)
Definition lima_members : gmap string pyval :=
  list_to_map [("status", PStr "success"); ("city", PStr "Lima");
               ("countryCode", PStr "PE"); ("lat", PFloat (-12)%float);
               ("lon", PFloat (-77)%float)].

Definition in_lima : world :=
  World (fun _ => HttpJson (obj [("status", PStr "ZERO_RESULTS")]))
        (HttpJson (PDict lima_members))
        (fun _ _ _ => HttpFail).

(** The members of [clinic "A"]. *)
Definition clinic_a : gmap string pyval :=
  list_to_map
    [("name", PStr "A");
     ("geometry",
      obj [("location",
            obj [("lat", PFloat 12.5%float); ("lng", PFloat 77.75%float)])])].

(** Twelve good places followed by one that is no object at all. *)
Definition thirteen : list pyval := take 12 twenty ++ [PNone].

Lemma error_values_enumerated_witness :
  ("Unable to detect your location. Please provide a city name." =
   "Unable to detect your location. Please provide a city name." /\
   Forall is_lookup (calls (find_doctors host0 offline None None None None 20))) \/
  (exists la ln label,
     outcome (resolve_location host0 offline None None None) =
       inr (Some (la, ln, label)) /\
     NearbySearchCall (str host0 la +:+ "," +:+ str host0 ln)
       ((20 * 1000) `min` 50000)%Z (keyword_of None) (API_KEY host0) ∈
       calls (find_doctors host0 offline None None None None 20) /\
     ("Unable to detect your location. Please provide a city name." =
        "Google Places API not enabled or billing inactive." \/
      "Unable to detect your location. Please provide a city name." =
        "API quota exceeded." \/
      "Unable to detect your location. Please provide a city name." =
        "No doctors found within " +:+ pretty 20%Z +:+ " km of " +:+
        label +:+ ".")).
Proof.
  apply (error_values_enumerated host0 offline None None None None 20).
  reflexivity.
Defined.

Lemma listing_shape_witness :
  exists la ln label resp found lines,
    outcome (resolve_location host0 bangalore (Some "Bangalore") None None) =
      inr (Some (la, ln, label)) /\
    places_api bangalore (str host0 la +:+ "," +:+ str host0 ln)
      ((5 * 1000) `min` 50000)%Z (keyword_of (Some "dentist")) = HttpJson resp /\
    get resp "results" (PList []) = inr (PList found) /\
    render_page (Some "dentist") "Bangalore"
      (render_lines host0 [clinic_result "A"; clinic_result "B"; clinic_result "C"]) =
      nl +:+ "    Here are the top dentist near " +:+ label +:+ ":" +:+ nl +:+ nl +:+
      "    " +:+ String.concat nl lines +:+ nl +:+ nl +:+
      "    Do you want directions, phone number, or another specialty?" +:+
      nl +:+ "    " /\
    length lines = 12 `min` length found /\
    1 <= length lines <= 12 /\
    (forall i, i < length lines ->
       exists (p : gmap string pyval) d,
         found !! i = Some (PDict p) /\
         doctor_of host0 la ln (PDict p) = inr d /\
         lines !! i =
           Some (pretty (S i) +:+ ". " +:+
                 str host0 (default (PStr "Unknown") (p !! "name")) +:+ " • " +:+
                 str host0 (rating d) +:+ " " +:+ str host0 (reviews d) +:+ " • " +:+
                 float_str host0 (distance_km d) +:+ " • " +:+
                 str host0 (open_now d))).
Proof.
  apply (listing_shape host0 bangalore (Some "dentist") (Some "Bangalore")
           None None 5).
  vm_compute. reflexivity.
Defined.

Lemma places_beyond_twelfth_ignored_witness :
  find_doctors host0 (searching (found "OK" twenty)) None None
    (Some 12.5%float) (Some 77.75%float) 20 =
  find_doctors host0 (searching (found "OK" thirteen)) None None
    (Some 12.5%float) (Some 77.75%float) 20.
Proof.
  refine (places_beyond_twelfth_ignored host0
            (searching (found "OK" twenty)) (searching (found "OK" thirteen))
            None None (Some 12.5%float) (Some 77.75%float) 20
            (found "OK" twenty) (found "OK" thirteen) twenty thirteen
            _ _ _ _ _ _ _).
  - reflexivity.
  - reflexivity.
  - intros location radius keyword. split; reflexivity.
  - reflexivity.
  - reflexivity.
  - reflexivity.
  - reflexivity.
Defined.

Lemma malformed_place_aborts_witness :
  exists e,
    outcome (find_doctors host0
               (searching (found "OK" [clinic "A"; obj [("name", PStr "B")]]))
               None None (Some 12.5%float) (Some 77.75%float) 20) = inl e.
Proof.
  refine (malformed_place_aborts host0
            (searching (found "OK" [clinic "A"; obj [("name", PStr "B")]]))
            None None (Some 12.5%float) (Some 77.75%float) 20
            (PFloat 12.5%float) (PFloat 77.75%float) "your area"
            (found "OK" [clinic "A"; obj [("name", PStr "B")]]) (PStr "OK")
            [clinic "A"; obj [("name", PStr "B")]] 1
            (list_to_map [("name", PStr "B")])
            _ _ _ _ _ _ _ _ _);
    try reflexivity.
  lia.
Defined.

Lemma ip_origin_and_label_witness :
  resolve_location host0 in_lima None None None =
    ([IpLookupCall],
     inr (Some (PFloat (-12)%float, PFloat (-77)%float, "Lima, PE"))) /\
  resolve_location host0 in_lima (Some "Atlantis") None None =
    ([GeocodeCall "Atlantis" "k"; IpLookupCall],
     inr (Some (PFloat (-12)%float, PFloat (-77)%float, "Lima, PE"))).
Proof.
  destruct (ip_origin_and_label host0 in_lima lima_members
              (PFloat (-12)%float) (PFloat (-77)%float))
    as [Hnone Hcity]; try reflexivity.
  split; [exact Hnone|].
  refine (Hcity "Atlantis" (obj [("status", PStr "ZERO_RESULTS")])
            (PStr "ZERO_RESULTS") _ _ _ _); reflexivity.
Defined.

Lemma partial_coordinates_are_discarded_witness :
  find_doctors host0 in_lima None None (Some 0%float) (Some 77.75%float) 20 =
  find_doctors host0 in_lima None None None None 20.
Proof.
  refine (partial_coordinates_are_discarded host0 in_lima None None
            (Some 0%float) (Some 77.75%float) 20 _).
  reflexivity.
Defined.

Lemma search_request_parameters_witness :
  (exists la ln label,
     outcome (resolve_location host0 offline (Some "Pune")
                (Some 18.5%float) (Some 73.75%float)) =
       inr (Some (la, ln, label)) /\
     "0.0,0.0" = str host0 la +:+ "," +:+ str host0 ln) /\
  "skin" = (if String.eqb "  skin " "" then "doctor" else strip "  skin ") /\
  "k" = API_KEY host0.
Proof.
  refine (search_request_parameters host0 offline (Some "  skin ") (Some "Pune")
            (Some 18.5%float) (Some 73.75%float) 20
            "0.0,0.0" 20000 "skin" "k" _).
  vm_compute. constructor.
Defined.

Lemma place_conversion_witness :
  doctor_of host0 (PFloat 12.5%float) (PFloat 77.75%float) (PDict clinic_a) =
  inr (clinic_result "A").
Proof.
  refine (place_conversion host0 (PFloat 12.5%float) (PFloat 77.75%float) clinic_a
            (obj [("location",
                   obj [("lat", PFloat 12.5%float); ("lng", PFloat 77.75%float)])])
            (obj [("lat", PFloat 12.5%float); ("lng", PFloat 77.75%float)])
            (PFloat 12.5%float) (PFloat 77.75%float) 0%float _ _ _ _ _);
    reflexivity.
Defined.
